(** * oauth2freeipa: the FreeIPA local authenticator

    A shallow embedding of [oauth2freeipa/__init__.py]: the class
    [LocalFreeIPAAuthenticator] with its credential scope
    ([kerberos_ticket]), its two directory operations
    ([system_user_exists], [add_system_user]) and its provisioning gate
    ([pre_spawn_start]).

    The program talks to the outside through four calls only:
    [subprocess.run], [os.path.exists], [self.log.warning] and
    [asyncio.sleep] under [asyncio.timeout].  The embedding threads a
    [world] (a clock in milliseconds and the log of those calls) through
    every method, and asks an oracle [OS] what the operating system answers
    and how long it takes to answer.  [subprocess.run] and [os.path.exists]
    block: the clock advances by the time they take and nothing else
    happens meanwhile.  The event loop is otherwise idle: a sleep wakes on
    time, and only the timeout of [pre_spawn_start] cancels it.  The two
    [while] loops carry fuel; fuel beyond [pre_spawn_timeout] is always
    enough ([pre_spawn_start_terminates]) and more changes nothing
    ([pre_spawn_start_more_fuel]). *)

From Stdlib Require Import ZArith NArith List String Ascii Bool Lia.
Import ListNotations.
Open Scope string_scope.
Open Scope list_scope.
Open Scope Z_scope.

(** ** Python values *)

(** The classes of [OSError] that matter here.  The builtin [TimeoutError]
    is a subclass of [OSError]; it is what [asyncio.timeout] raises. *)
Inductive os_error_class :=
| FileNotFoundError
| PermissionError
| TimeoutError
| OtherOSError.

(** An [OSError] instance.  A bare [TimeoutError()] has no errno, no
    message and no file name. *)
Record os_error := mk_os_error {
  oe_class : os_error_class;
  oe_errno : option Z;
  oe_strerror : string;
  oe_filename : string
}.

Definition bare_TimeoutError : os_error :=
  {| oe_class := TimeoutError; oe_errno := None;
     oe_strerror := ""; oe_filename := "" |}.

(** [subprocess.CalledProcessError(returncode, cmd, output, stderr)]. *)
Record called_process_error := mk_called_process_error {
  cpe_returncode : Z;
  cpe_cmd : list string;
  cpe_output : string;
  cpe_stderr : string
}.

(** [subprocess.CompletedProcess]. *)
Record completed_process := mk_completed_process {
  args : list string;
  returncode : Z;
  stdout : string;
  stderr : string
}.

(** The pieces of an f-string.  Interpolating a [str] is the identity; a
    list or an exception is interpolated through [str()], which is kept
    symbolic: the piece records the value that is printed. *)
Inductive frag :=
| Lit (s : string)
| FStr (s : string)
| FList (l : list string)
| FOSError (e : os_error)
| FCalledProcessError (e : called_process_error).

Inductive exn :=
| OSError (e : os_error)
| CalledProcessError (e : called_process_error)
| RuntimeError (msg : list frag)
| ValueError (msg : string)
| CancelledError.

Inductive result (A : Type) :=
| Ok (a : A)
| Raise (e : exn).
Arguments Ok {A} a.
Arguments Raise {A} e.

(** ** The world *)

(** What the operating system answers to [subprocess.run]: the program
    could not be launched ([Popen] raises an [OSError]), or it ran and
    exited. *)
Inductive run_reply :=
| LaunchFault (e : os_error)
| Exited (rc : Z) (out err : string).

Inductive event :=
| Run (argv : list string) (reply : run_reply)
| PathExists (p : string) (b : bool)
| Warning (msg : string)
| Sleep (secs : Z).

(** The clock counts milliseconds; every logged event carries the time at
    which it started. *)
Record world := mk_world {
  now : Z;
  trace : list (Z * event)
}.

(** The operating system: what a command or a file-system probe answers in
    a given world, and how many milliseconds the (blocking) call takes. *)
Record OS := mk_OS {
  spawn : world -> list string -> run_reply * N;
  probe : world -> string -> bool * N
}.

Definition ms_per_s : Z := 1000.

Definition M (A : Type) : Type := world -> result A * world.

Definition ret {A} (a : A) : M A := fun w => (Ok a, w).

Definition raise {A} (e : exn) : M A := fun w => (Raise e, w).

Definition bind {A B} (m : M A) (k : A -> M B) : M B :=
  fun w =>
    match m w with
    | (Ok a, w1) => k a w1
    | (Raise e, w1) => (Raise e, w1)
    end.

Declare Scope py_scope.
Delimit Scope py_scope with py.
Notation "x <- m ;; k" := (bind m (fun x => k))
  (at level 100, m at next level, right associativity) : py_scope.
Notation "m ;;; k" := (bind m (fun _ => k))
  (at level 100, right associativity) : py_scope.
Open Scope py_scope.

(** [try: body finally: fin].  The [finally] block runs on every exit of
    [body]; an exception of its own replaces the pending outcome. *)
Definition try_finally {A} (body : M A) (fin : M unit) : M A :=
  fun w =>
    let (r, w1) := body w in
    match fin w1 with
    | (Ok _, w2) => (r, w2)
    | (Raise e, w2) => (Raise e, w2)
    end.

(** [try: body except ...: handler]. *)
Definition try_except {A} (body : M A) (handler : exn -> M A) : M A :=
  fun w =>
    match body w with
    | (Ok a, w1) => (Ok a, w1)
    | (Raise e, w1) => handler e w1
    end.

Definition log_event (e : event) (d : N) (w : world) : world :=
  {| now := now w + Z.of_N d; trace := trace w ++ [(now w, e)] |}.

(** ** [shlex.split]

    [shlex.split(s)] runs the [shlex] tokenizer in POSIX mode with
    [whitespace_split] set and no comment characters.  [shlex_scan] is the
    state machine of [shlex.read_token] under those settings, run over the
    whole input: the states are [' '] (between tokens), ['a'] (inside a
    word), a quote character (inside quotes) and the escape character
    (after a backslash, with the state to come back to). *)
Inductive lex_state :=
| InBlank
| InWord
| InQuote (q : ascii)
| InEscape (escapedstate : option ascii).

Definition squote : ascii := "039"%char.
Definition dquote : ascii := "034"%char.
Definition backslash : ascii := "092"%char.

Definition in_whitespace (c : ascii) : bool :=
  existsb (Ascii.eqb c) [" "%char; "009"%char; "013"%char; "010"%char].

Definition in_quotes (c : ascii) : bool :=
  existsb (Ascii.eqb c) [squote; dquote].

Definition in_escape (c : ascii) : bool := Ascii.eqb c backslash.

Definition in_escapedquotes (c : ascii) : bool := Ascii.eqb c dquote.

Definition add_char (token : string) (c : ascii) : string :=
  (token ++ String c "")%string.

(** [if self.token or (self.posix and quoted): break], then
    [read_token]'s return: an empty unquoted token is no token. *)
Definition emit (token : string) (quoted : bool) (toks : list string)
  : list string :=
  if negb (token =? "")%string || quoted then toks ++ [token] else toks.

Fixpoint shlex_scan (cs : list ascii) (state : lex_state) (token : string)
  (quoted : bool) (toks : list string) : string + list string :=
  match cs with
  | [] =>
      match state with
      | InBlank => inr toks
      | InWord => inr (emit token quoted toks)
      | InQuote _ => inl "No closing quotation"
      | InEscape _ => inl "No escaped character"
      end
  | c :: cs' =>
      match state with
      | InBlank =>
          if in_whitespace c then
            shlex_scan cs' InBlank "" false (emit token quoted toks)
          else if in_escape c then
            shlex_scan cs' (InEscape None) token quoted toks
          else if in_quotes c then
            shlex_scan cs' (InQuote c) token quoted toks
          else
            shlex_scan cs' InWord (String c "") quoted toks
      | InQuote q =>
          if Ascii.eqb c q then
            shlex_scan cs' InWord token true toks
          else if in_escape c && in_escapedquotes q then
            shlex_scan cs' (InEscape (Some q)) token true toks
          else
            shlex_scan cs' (InQuote q) (add_char token c) true toks
      | InEscape None =>
          shlex_scan cs' InWord (add_char token c) quoted toks
      | InEscape (Some q) =>
          if negb (Ascii.eqb c backslash) && negb (Ascii.eqb c q) then
            shlex_scan cs' (InQuote q)
              (add_char (add_char token backslash) c) quoted toks
          else
            shlex_scan cs' (InQuote q) (add_char token c) quoted toks
      | InWord =>
          if in_whitespace c then
            shlex_scan cs' InBlank "" false (emit token quoted toks)
          else if in_quotes c then
            shlex_scan cs' (InQuote c) token quoted toks
          else if in_escape c then
            shlex_scan cs' (InEscape None) token quoted toks
          else
            shlex_scan cs' InWord (add_char token c) quoted toks
      end
  end.

Definition shlex_split (s : string) : string + list string :=
  shlex_scan (list_ascii_of_string s) InBlank "" false [].

(** ** The authenticator's data *)

(** The configurable traits of [LocalFreeIPAAuthenticator]. *)
Record LocalFreeIPAAuthenticator := mk_LocalFreeIPAAuthenticator {
  max_add_user_retry : Z;
  default_group : string;
  keytab_path : string;
  keytab_principal : string;
  user_add_cmd : string;
  pre_spawn_timeout : Z
}.

Definition default_authenticator : LocalFreeIPAAuthenticator :=
  {| max_add_user_retry := 10;
     default_group := "def-sponsor00";
     keytab_path := "/etc/jupyterhub/jupyterhub.keytab";
     keytab_principal := "jupyterhub/jupyterhub";
     user_add_cmd := "ipa_create_user.py";
     pre_spawn_timeout := 30 |}.

Record user := mk_user { name : string }.

(** What [pre_spawn_start] reads of the spawner: [last_activity] ([None]
    until the user's server has been active once, a time stamp afterwards)
    and whether it is a [SlurmSpawner]. *)
Record spawner := mk_spawner {
  last_activity : option Z;
  is_SlurmSpawner : bool
}.

Implicit Types self : LocalFreeIPAAuthenticator.

Definition kinit_argv self : list string :=
  ["kinit"; "-kt"; keytab_path self; "-p"; keytab_principal self].

Definition kdestroy_argv self : list string :=
  ["kdestroy"; "-p"; keytab_principal self].

Definition user_show_argv (u : user) : list string :=
  ["ipa"; "user-show"; name u].

Definition sacctmgr_argv (u : user) : list string :=
  ["sacctmgr"; "show"; "user"; "-n"; name u].

Definition home_of (u : user) : string := ("/home/" ++ name u)%string.

Definition home_missing (u : user) : string :=
  ("Home folder for " ++ name u ++ " is missing")%string.

Definition slurm_missing (u : user) : string :=
  ("Slurm account for " ++ name u ++ " is missing")%string.

(** Truth value of a [str]: the empty string is false. *)
Definition truthy (s : string) : bool := negb (s =? "")%string.

(** The first three lines of [add_system_user]: the command that is run. *)
Definition build_user_add_cmd self (u : user)
  : string + list string :=
  match shlex_split (user_add_cmd self) with
  | inl msg => inl msg
  | inr toks =>
      let cmd := toks ++ [name u] in
      inr (if truthy (default_group self)
           then cmd ++ ["--group"; default_group self]
           else cmd)
  end.

(** The two messages of [add_system_user]:
    "Failed to create FreeIPA user {user.name} - could not call
    {user_add_cmd}: {e}" and "Failed to create FreeIPA user {user.name} -
    {user_add_cmd} returned with an error: {e}". *)
Definition could_not_call (u : user) (cmd : list string) (e : os_error)
  : list frag :=
  [Lit "Failed to create FreeIPA user "; FStr (name u);
   Lit " - could not call "; FList cmd; Lit ": "; FOSError e].

Definition returned_with_an_error (u : user) (cmd : list string)
  (e : called_process_error) : list frag :=
  [Lit "Failed to create FreeIPA user "; FStr (name u);
   Lit " - "; FList cmd; Lit " returned with an error: ";
   FCalledProcessError e].

(** Computations that loop carry fuel: [None] is "out of fuel". *)
Definition F (A : Type) : Type := world -> option (result A * world).

Definition liftF {A} (m : M A) : F A := fun w => Some (m w).

Definition bindF {A B} (m : F A) (k : A -> F B) : F B :=
  fun w =>
    match m w with
    | None => None
    | Some (Ok a, w1) => k a w1
    | Some (Raise e, w1) => Some (Raise e, w1)
    end.

(** [while cond: body]. *)
Fixpoint while (fuel : nat) (cond : M bool) (body : M unit) : F unit :=
  fun w =>
    match fuel with
    | O => None
    | S fuel' =>
        match cond w with
        | (Raise e, w1) => Some (Raise e, w1)
        | (Ok false, w1) => Some (Ok tt, w1)
        | (Ok true, w1) =>
            match body w1 with
            | (Raise e, w2) => Some (Raise e, w2)
            | (Ok _, w2) => while fuel' cond body w2
            end
        end
    end.

(** [self.log.warning(msg)]. *)
Definition log_warning (msg : string) : M unit :=
  fun w =>
    (Ok tt, {| now := now w; trace := trace w ++ [(now w, Warning msg)] |}).

(** [await asyncio.sleep(secs)] inside [async with asyncio.timeout(...)]
    whose deadline is [deadline].  The coroutine yields to the event loop,
    which runs whichever timer is due first.  When the deadline is due no
    later than the wake-up, the loop cancels the task: the sleep raises
    [CancelledError], at the deadline or at once when the deadline has
    already passed.  ([secs] is positive: the program sleeps one second at
    a time.) *)
Definition asyncio_sleep (deadline : Z) (secs : Z) : M unit :=
  fun w =>
    let wake := now w + secs * ms_per_s in
    let tr := trace w ++ [(now w, Sleep secs)] in
    if deadline <=? wake
    then (Raise CancelledError,
          {| now := Z.max deadline (now w); trace := tr |})
    else (Ok tt, {| now := wake; trace := tr |}).

(** How [asyncio.timeout] hands on the outcome of its block: a
    cancellation that the timeout caused becomes a bare [TimeoutError],
    anything else passes. *)
Definition on_exit {A} (r : result A) : result A :=
  match r with
  | Raise CancelledError => Raise (OSError bare_TimeoutError)
  | _ => r
  end.

(** [async with asyncio.timeout(delay): body].  The deadline is fixed on
    entry, [delay] seconds from now. *)
Definition asyncio_timeout {A} (delay : Z) (body : Z -> F A) : F A :=
  fun w =>
    let deadline := now w + delay * ms_per_s in
    match body deadline w with
    | Some (r, w1) => Some (on_exit r, w1)
    | None => None
    end.

Section Program.

Variable os : OS.

(** [subprocess.run(argv, check=check, capture_output=True)]: [Popen]
    raises an [OSError] when the program cannot be launched; with [check]
    a non-zero exit status raises [CalledProcessError].  (Arguments are
    taken to be free of NUL characters.) *)
Definition subprocess_run (argv : list string) (check : bool)
  : M completed_process :=
  fun w =>
    let (reply, d) := spawn os w argv in
    let w1 := log_event (Run argv reply) d w in
    match reply with
    | LaunchFault e => (Raise (OSError e), w1)
    | Exited rc out err =>
        if check && negb (rc =? 0)
        then (Raise (CalledProcessError
                       (mk_called_process_error rc argv out err)), w1)
        else (Ok (mk_completed_process argv rc out err), w1)
    end.

(** [os.path.exists(p)]: never raises. *)
Definition path_exists (p : string) : M bool :=
  fun w =>
    let (b, d) := probe os w p in
    (Ok b, log_event (PathExists p b) d w).

(** [kerberos_ticket]: a context manager; [body] is the block under
    [with self.kerberos_ticket():]. *)
Definition kerberos_ticket {A} self (body : M A) : M A :=
  subprocess_run (kinit_argv self) false ;;;
  try_finally body (subprocess_run (kdestroy_argv self) false ;;; ret tt).

Definition system_user_exists self (u : user) : M bool :=
  process <- kerberos_ticket self
               (subprocess_run (user_show_argv u) false) ;;
  ret (returncode process =? 0).

Definition add_system_user self (u : user) : M unit :=
  match build_user_add_cmd self u with
  | inl msg => raise (ValueError msg)
  | inr cmd =>
      try_except
        (kerberos_ticket self (subprocess_run cmd true) ;;; ret tt)
        (fun e =>
           match e with
           | OSError e => raise (RuntimeError (could_not_call u cmd e))
           | CalledProcessError e =>
               raise (RuntimeError (returned_with_an_error u cmd e))
           | _ => raise e
           end)
  end.

Definition home_is_missing (u : user) : M bool :=
  b <- path_exists (home_of u) ;; ret (negb b).

Definition slurm_is_missing (u : user) : M bool :=
  process <- subprocess_run (sacctmgr_argv u) false ;;
  ret (String.length (stdout process) =? 0)%nat.

Definition pre_spawn_start (fuel : nat) self (u : user)
  (sp : spawner) : F unit :=
  match last_activity sp with
  | Some _ => liftF (ret tt)
  | None =>
      asyncio_timeout (pre_spawn_timeout self) (fun deadline =>
        bindF
          (while fuel (home_is_missing u)
             (log_warning (home_missing u) ;;; asyncio_sleep deadline 1))
          (fun _ =>
             if is_SlurmSpawner sp then
               while fuel (slurm_is_missing u)
                 (log_warning (slurm_missing u) ;;; asyncio_sleep deadline 1)
             else liftF (ret tt)))
  end.

(** Modelled from the spec: the pre-creation hook (Hook A of the
    ProvisioningOrchestrator).  The hook itself is the [add_user] that the
    class inherits from [jupyterhub]'s [LocalAuthenticator]; it is not part
    of this repository.  The spec gives it as: if [userExists] is false,
    call [createUser] and propagate its error unchanged. *)
Definition pre_creation_hook self (u : user) : M unit :=
  found <- system_user_exists self u ;;
  if found then ret tt else add_system_user self u.

End Program.

(** ** The shape of a polling loop's log

    What [while missing: warn; sleep(1)] under a deadline leaves in the
    log.  [Q e r] relates the event of one poll to what the poll's
    condition evaluates to ([Ok true]: still missing).  A loop's log is a
    row of rounds, poll, warning, sleep, each sleep woken one second later
    and strictly before the deadline, closed by a last poll (satisfied, or
    raising) or by a last round whose sleep the deadline cuts short.  The
    last index is how the loop ends. *)
Definition starts_at (t : Z) (tr : list (Z * event)) : Prop :=
  exists e rest, tr = (t, e) :: rest.

Inductive polls (deadline : Z) (msg : string)
  (Q : event -> result bool -> Prop)
  : list (Z * event) -> result unit -> Prop :=
| polls_satisfied (t : Z) (e : event) :
    Q e (Ok false) ->
    polls deadline msg Q [(t, e)] (Ok tt)
| polls_raised (t : Z) (e : event) (x : exn) :
    Q e (Raise x) ->
    polls deadline msg Q [(t, e)] (Raise x)
| polls_expired (t t1 : Z) (e : event) :
    Q e (Ok true) -> t <= t1 -> deadline <= t1 + 1 * ms_per_s ->
    polls deadline msg Q
      [(t, e); (t1, Warning msg); (t1, Sleep 1)] (Raise CancelledError)
| polls_again (t t1 : Z) (e : event) (rest : list (Z * event))
    (r : result unit) :
    Q e (Ok true) -> t <= t1 -> t1 + 1 * ms_per_s < deadline ->
    starts_at (t1 + 1 * ms_per_s) rest ->
    polls deadline msg Q rest r ->
    polls deadline msg Q
      ((t, e) :: (t1, Warning msg) :: (t1, Sleep 1) :: rest) r.

(** One poll of the home directory, one poll of the accounting record. *)
Definition home_poll (u : user) (e : event) (r : result bool) : Prop :=
  exists b, e = PathExists (home_of u) b /\ r = Ok (negb b).

Definition slurm_poll (u : user) (e : event) (r : result bool) : Prop :=
  exists reply,
    e = Run (sacctmgr_argv u) reply /\
    r = match reply with
        | LaunchFault x => Raise (OSError x)
        | Exited _ out _ => Ok (String.length out =? 0)%nat
        end.

(** The warning logged last, if any. *)
Fixpoint last_warning (tr : list (Z * event)) : option string :=
  match tr with
  | [] => None
  | (_, e) :: rest =>
      match last_warning rest with
      | Some m => Some m
      | None => match e with Warning m => Some m | _ => None end
      end
  end.

(** A spawner that has never been active. *)
Definition first_spawn (slurm : bool) : spawner :=
  {| last_activity := None; is_SlurmSpawner := slurm |}.

(** The body of either polling loop of [pre_spawn_start]. *)
Definition poll_body (deadline : Z) (msg : string) : M unit :=
  log_warning msg ;;; asyncio_sleep deadline 1.

(** A condition that makes one call: it logs one event and takes some
    time. *)
Definition one_poll (Q : event -> result bool -> Prop) (cond : M bool)
  : Prop :=
  forall w, exists e d,
    snd (cond w) = log_event e d w /\ Q e (fst (cond w)).

(** ** Observing a run *)

Definition launched (reply : run_reply) : bool :=
  match reply with
  | LaunchFault _ => false
  | Exited _ _ _ => true
  end.

Definition is_run (argv : list string) (entry : Z * event) : bool :=
  match snd entry with
  | Run argv' _ => if list_eq_dec string_dec argv argv' then true else false
  | _ => false
  end.

(** How many times [argv] was handed to [subprocess.run]. *)
Definition count_runs (argv : list string) (tr : list (Z * event)) : nat :=
  List.length (filter (is_run argv) tr).

(** The answer to [argv] in world [w], and the world after the call. *)
Definition reply_to (os : OS) (w : world) (argv : list string) : run_reply :=
  fst (spawn os w argv).

Definition after_run (os : OS) (w : world) (argv : list string) : world :=
  log_event (Run argv (reply_to os w argv)) (snd (spawn os w argv)) w.

(** ** Sample worlds *)

Definition alice : user := {| name := "alice" |}.

Definition epoch : world := {| now := 0; trace := [] |}.

Definition enoent (prog : string) : os_error :=
  {| oe_class := FileNotFoundError; oe_errno := Some 2;
     oe_strerror := "No such file or directory"; oe_filename := prog |}.

(** An operating system given by a table from program names to answers:
    a program of the table answers as the table says, any other command
    runs and exits 0 with some output; every path exists and every call
    returns at once. *)
Fixpoint lookup_prog (table : list (string * run_reply)) (prog : string)
  : run_reply :=
  match table with
  | [] => Exited 0 "ok" ""
  | (p, reply) :: table' =>
      if (p =? prog)%string then reply else lookup_prog table' prog
  end.

Definition os_of (table : list (string * run_reply)) : OS :=
  {| spawn := fun _ argv => (lookup_prog table (hd "" argv), 0%N);
     probe := fun _ _ => (true, 0%N) |}.

Definition os_fine : OS := os_of [].

(** As [os_fine], but the program [prog] is not installed. *)
Definition os_without (prog : string) : OS :=
  os_of [(prog, LaunchFault (enoent prog))].

(** As [os_fine], but the program [prog] exits with status [rc]. *)
Definition os_failing (prog : string) (rc : Z) : OS :=
  os_of [(prog, Exited rc "" "failed")].

(** For the gate: the home directory is there or not ([home]), a probe of
    it takes [probe_ms] milliseconds, and [sacctmgr] prints [account]. *)
Definition os_gate (home : bool) (probe_ms : N) (account : string) : OS :=
  {| spawn := fun _ argv =>
       (lookup_prog [("sacctmgr", Exited 0 account "")] (hd "" argv), 0%N);
     probe := fun _ _ => (home, probe_ms) |}.

(** The default configuration with another [pre_spawn_timeout]. *)
Definition with_timeout (secs : Z) : LocalFreeIPAAuthenticator :=
  {| max_add_user_retry := max_add_user_retry default_authenticator;
     default_group := default_group default_authenticator;
     keytab_path := keytab_path default_authenticator;
     keytab_principal := keytab_principal default_authenticator;
     user_add_cmd := user_add_cmd default_authenticator;
     pre_spawn_timeout := secs |}.

(** A directory that knows a user once [ipa_create_user.py] has succeeded:
    until then [ipa user-show] exits with status 2. *)
Definition created (tr : list (Z * event)) : bool :=
  existsb
    (fun entry =>
       match snd entry with
       | Run argv (Exited 0 _ _) => (hd "" argv =? "ipa_create_user.py")%string
       | _ => false
       end) tr.

Definition os_directory : OS :=
  {| spawn := fun w argv =>
       if (hd "" argv =? "ipa")%string && negb (created (trace w))
       then (Exited 2 "" "ipa: ERROR: user not found", 0%N)
       else (Exited 0 "ok" "", 0%N);
     probe := fun _ _ => (true, 0%N) |}.

(** A home directory that appears [ms] milliseconds after the epoch. *)
Definition os_home_after (ms : Z) : OS :=
  {| spawn := fun _ _ => (Exited 0 "ok" "", 0%N);
     probe := fun w _ => (ms <=? now w, 0%N) |}.

(** The default configuration with another [user_add_cmd]. *)
Definition with_user_add_cmd (cmd : string) : LocalFreeIPAAuthenticator :=
  {| max_add_user_retry := max_add_user_retry default_authenticator;
     default_group := default_group default_authenticator;
     keytab_path := keytab_path default_authenticator;
     keytab_principal := keytab_principal default_authenticator;
     user_add_cmd := cmd;
     pre_spawn_timeout := pre_spawn_timeout default_authenticator |}.

(** ** Counting and plain words *)

Definition is_sleep (entry : Z * event) : bool :=
  match snd entry with
  | Sleep _ => true
  | _ => false
  end.

Definition is_warning (entry : Z * event) : bool :=
  match snd entry with
  | Warning _ => true
  | _ => false
  end.

(** How many sleeps, how many warnings a log holds. *)
Definition count_sleeps (tr : list (Z * event)) : nat :=
  List.length (filter is_sleep tr).

Definition count_warnings (tr : list (Z * event)) : nat :=
  List.length (filter is_warning tr).

(** A character that the tokenizer takes as it is: no white space, no
    quote, no backslash. *)
Definition is_plain (c : ascii) : bool :=
  negb (in_whitespace c) && negb (in_quotes c) && negb (in_escape c).

(** A character that cannot make the tokenizer fail: no quote, no
    backslash. *)
Definition is_harmless (c : ascii) : bool :=
  negb (in_quotes c) && negb (in_escape c).

Definition plain_word (word : string) : Prop :=
  word <> "" /\ forallb is_plain (list_ascii_of_string word) = true.

(** What the gate may log for user [u]: probes of the home folder, runs of
    [sacctmgr] (for a [SlurmSpawner] only), the two warnings (the Slurm one
    for a [SlurmSpawner] only) and sleeps of one second. *)
Definition gate_event (u : user) (slurm : bool) (e : event) : Prop :=
  match e with
  | Run argv _ => slurm = true /\ argv = sacctmgr_argv u
  | PathExists p _ => p = home_of u
  | Warning m =>
      m = home_missing u \/ (slurm = true /\ m = slurm_missing u)
  | Sleep secs => secs = 1
  end.

(** A home directory that appears at time [t] and stays, probed in
    [probe_ms] milliseconds; [sacctmgr] as the table says. *)
Definition os_home_at (t : Z) (probe_ms : N)
  (table : list (string * run_reply)) : OS :=
  {| spawn := fun _ argv => (lookup_prog table (hd "" argv), 0%N);
     probe := fun w _ => (t <=? now w, probe_ms) |}.

(** * Properties *)

(** Case analysis on the outcomes of a run, as far as it goes. *)
Ltac break_cases :=
  repeat match goal with
    | |- _ /\ _ => split
    | |- _ <-> _ => split
    | |- forall _, _ => intro
    | H : _ /\ _ |- _ => destruct H
    | H : exists _, _ |- _ => destruct H
    | H : _ \/ _ |- _ => destruct H
    | H : Raise _ = Raise _ |- _ => injection H as H; subst
    | H : Exited _ _ _ = Exited _ _ _ |- _ => injection H as H; subst
    | H : _ = _ |- _ => discriminate H
    end.

(** ** The tokenizer at work *)

Example shlex_split_words :
  shlex_split "ipa_create_user.py  --posix -v " =
  inr ["ipa_create_user.py"; "--posix"; "-v"].
Proof. reflexivity. Qed.

Example shlex_split_quotes :
  shlex_split "sudo -u 'ipa admin' add\ user '' a'b'c" =
  inr ["sudo"; "-u"; "ipa admin"; "add user"; ""; "abc"].
Proof. reflexivity. Qed.

Example shlex_split_unbalanced :
  shlex_split "ipa_create_user.py 'a" = inl "No closing quotation" /\
  shlex_split "ipa_create_user.py \" = inl "No escaped character".
Proof. split; reflexivity. Qed.

(** ** The primitives, one equation each *)

Lemma subprocess_run_eq (os : OS) (argv : list string) (check : bool)
  (w : world) :
  subprocess_run os argv check w =
  (match reply_to os w argv with
   | LaunchFault e => Raise (OSError e)
   | Exited rc out err =>
       if check && negb (rc =? 0)
       then Raise (CalledProcessError
                     (mk_called_process_error rc argv out err))
       else Ok (mk_completed_process argv rc out err)
   end, after_run os w argv).
Proof.
  unfold subprocess_run, after_run, reply_to.
  destruct (spawn os w argv) as [reply d]; cbn.
  destruct reply as [e | rc out err]; [reflexivity |].
  destruct (check && negb (rc =? 0)); reflexivity.
Qed.

Lemma after_run_trace (os : OS) (w : world) (argv : list string) :
  trace (after_run os w argv) =
  trace w ++ [(now w, Run argv (reply_to os w argv))].
Proof. reflexivity. Qed.

Lemma after_three_runs (os : OS) (w : world) (a b c : list string) :
  let w1 := after_run os w a in
  let w2 := after_run os w1 b in
  trace (after_run os w2 c) =
  trace w ++ [(now w, Run a (reply_to os w a));
              (now w1, Run b (reply_to os w1 b));
              (now w2, Run c (reply_to os w2 c))].
Proof.
  intros w1 w2. unfold w2, w1.
  rewrite !after_run_trace, <- !app_assoc. reflexivity.
Qed.

(** The credential scope, once the two credential commands are asked. *)
Lemma kerberos_ticket_eq (os : OS) {A} self (body : M A)
  (w : world) :
  kerberos_ticket os self body w =
  match reply_to os w (kinit_argv self) with
  | LaunchFault e => (Raise (OSError e), after_run os w (kinit_argv self))
  | Exited _ _ _ =>
      let w2 := snd (body (after_run os w (kinit_argv self))) in
      (match reply_to os w2 (kdestroy_argv self) with
       | LaunchFault e => Raise (OSError e)
       | Exited _ _ _ => fst (body (after_run os w (kinit_argv self)))
       end, after_run os w2 (kdestroy_argv self))
  end.
Proof.
  unfold kerberos_ticket, bind, try_finally.
  rewrite subprocess_run_eq.
  destruct (reply_to os w (kinit_argv self)) as [e | rc out err];
    [reflexivity |].
  cbn [andb].
  destruct (body (after_run os w (kinit_argv self))) as [r w2]; cbn [fst snd].
  rewrite subprocess_run_eq.
  destruct (reply_to os w2 (kdestroy_argv self)); reflexivity.
Qed.

Lemma count_runs_app (argv : list string) (tr1 tr2 : list (Z * event)) :
  count_runs argv (tr1 ++ tr2) =
  (count_runs argv tr1 + count_runs argv tr2)%nat.
Proof. unfold count_runs. rewrite filter_app, length_app. reflexivity. Qed.

Lemma count_runs_same (argv : list string) (t : Z) (reply : run_reply) :
  count_runs argv [(t, Run argv reply)] = 1%nat.
Proof.
  unfold count_runs, is_run; cbn.
  destruct (list_eq_dec string_dec argv argv); [reflexivity | congruence].
Qed.

(** ** The credential scope *)

(** C1.  Whatever the block under [with self.kerberos_ticket():] does
    (return a value, return a process that failed, raise), once [kinit]
    has been run the scope hands [kdestroy] to [subprocess.run] right after
    the block and at no other moment: the log is the block's log followed
    by that one call, so the block's exit is followed by exactly one
    release. *)
Theorem kerberos_ticket_releases_once (os : OS) {A} self
  (body : M A) (w : world) :
  launched (reply_to os w (kinit_argv self)) = true ->
  let w1 := after_run os w (kinit_argv self) in
  let w2 := snd (body w1) in
  let w3 := snd (kerberos_ticket os self body w) in
  trace w3 =
    trace w2 ++
    [(now w2, Run (kdestroy_argv self) (reply_to os w2 (kdestroy_argv self)))]
  /\ count_runs (kdestroy_argv self) (trace w3) =
     S (count_runs (kdestroy_argv self) (trace w2)).
Proof.
  intros Hk w1 w2 w3.
  assert (Hw3 : w3 = after_run os w2 (kdestroy_argv self)).
  { subst w3 w2 w1. rewrite kerberos_ticket_eq.
    destruct (reply_to os w (kinit_argv self)); [discriminate Hk |].
    reflexivity. }
  rewrite Hw3, after_run_trace. split; [reflexivity |].
  rewrite count_runs_app, count_runs_same. lia.
Qed.

(** A block that raises: [ipa] is not installed. *)
Lemma kerberos_ticket_releases_once_witness :
  launched (reply_to (os_without "ipa") epoch
              (kinit_argv default_authenticator)) = true /\
  count_runs (kdestroy_argv default_authenticator)
    (trace (snd (kerberos_ticket (os_without "ipa") default_authenticator
                   (subprocess_run (os_without "ipa") (user_show_argv alice)
                      false) epoch))) = 1%nat.
Proof.
  split; [reflexivity |].
  apply (kerberos_ticket_releases_once (os_without "ipa")
           default_authenticator
           (subprocess_run (os_without "ipa") (user_show_argv alice) false)
           epoch).
  reflexivity.
Defined.

(** C10.  The release step does not look at [kdestroy]'s exit status: when
    [kdestroy] runs, whatever status it exits with, the scope ends the way
    the block ended.  A value is returned as it is and an exception of the
    block is raised again, after the release call has been logged. *)
Theorem kerberos_ticket_ignores_kdestroy_status (os : OS) {A}
  self (body : M A) (w : world) :
  launched (reply_to os w (kinit_argv self)) = true ->
  let w1 := after_run os w (kinit_argv self) in
  let w2 := snd (body w1) in
  launched (reply_to os w2 (kdestroy_argv self)) = true ->
  kerberos_ticket os self body w =
  (fst (body w1), after_run os w2 (kdestroy_argv self)).
Proof.
  intros Hk w1 w2 Hd. subst w2 w1. rewrite kerberos_ticket_eq.
  destruct (reply_to os w (kinit_argv self)); [discriminate Hk |].
  cbn zeta.
  destruct (reply_to os _ (kdestroy_argv self)); [discriminate Hd |].
  reflexivity.
Qed.

(** The block raises ([ipa] is not installed) and [kdestroy] exits with
    status 1: the block's exception comes out. *)
Lemma kerberos_ticket_ignores_kdestroy_status_witness :
  fst (kerberos_ticket
         (os_of [("ipa", LaunchFault (enoent "ipa"));
                 ("kdestroy", Exited 1 "" "no cache")])
         default_authenticator
         (subprocess_run
            (os_of [("ipa", LaunchFault (enoent "ipa"));
                    ("kdestroy", Exited 1 "" "no cache")])
            (user_show_argv alice) false)
         epoch) = Raise (OSError (enoent "ipa")).
Proof.
  rewrite (kerberos_ticket_ignores_kdestroy_status
             (os_of [("ipa", LaunchFault (enoent "ipa"));
                     ("kdestroy", Exited 1 "" "no cache")])
             default_authenticator
             (subprocess_run
                (os_of [("ipa", LaunchFault (enoent "ipa"));
                        ("kdestroy", Exited 1 "" "no cache")])
                (user_show_argv alice) false)
             epoch); reflexivity.
Defined.

(** ** The directory operations *)

Lemma system_user_exists_eq (os : OS) self (u : user)
  (w : world) :
  let w1 := after_run os w (kinit_argv self) in
  let w2 := after_run os w1 (user_show_argv u) in
  system_user_exists os self u w =
  match reply_to os w (kinit_argv self) with
  | LaunchFault e => (Raise (OSError e), w1)
  | Exited _ _ _ =>
      (match reply_to os w2 (kdestroy_argv self) with
       | LaunchFault e => Raise (OSError e)
       | Exited _ _ _ =>
           match reply_to os w1 (user_show_argv u) with
           | LaunchFault e => Raise (OSError e)
           | Exited rc _ _ => Ok (rc =? 0)
           end
       end, after_run os w2 (kdestroy_argv self))
  end.
Proof.
  intros w1 w2. unfold system_user_exists, bind.
  rewrite kerberos_ticket_eq. fold w1.
  destruct (reply_to os w (kinit_argv self)); [reflexivity |].
  cbn zeta. rewrite subprocess_run_eq. cbn [fst snd andb]. fold w2.
  destruct (reply_to os w2 (kdestroy_argv self)); [reflexivity |].
  destruct (reply_to os w1 (user_show_argv u)); reflexivity.
Qed.

(** C6, as the code has it.  [system_user_exists] returns [True] exactly
    when [kinit], [ipa user-show] and [kdestroy] could all be launched and
    [ipa user-show] exited with status 0, and [False] exactly when all
    three could be launched and [ipa user-show] exited with any other
    status.  It raises exactly when one of the three could not be launched,
    and what it raises is that [OSError], unhandled. *)
Theorem system_user_exists_spec (os : OS) self (u : user)
  (w : world) :
  let w1 := after_run os w (kinit_argv self) in
  let w2 := after_run os w1 (user_show_argv u) in
  let k := reply_to os w (kinit_argv self) in
  let q := reply_to os w1 (user_show_argv u) in
  let d := reply_to os w2 (kdestroy_argv self) in
  let r := fst (system_user_exists os self u w) in
  (r = Ok true <->
   launched k = true /\ launched d = true /\
   exists out err, q = Exited 0 out err) /\
  (r = Ok false <->
   launched k = true /\ launched d = true /\
   exists rc out err, q = Exited rc out err /\ rc <> 0) /\
  ((exists e, r = Raise e) <->
   launched k = false \/ launched q = false \/ launched d = false) /\
  (forall e, r = Raise e ->
   exists oe, e = OSError oe /\
     (k = LaunchFault oe \/ q = LaunchFault oe \/ d = LaunchFault oe)).
Proof.
  intros w1 w2 k q d r. subst r.
  rewrite (system_user_exists_eq os self u w).
  fold w1 w2 k q d.
  destruct k as [xk | rck outk errk]; cbn [fst launched];
  [| destruct d as [xd | rcd outd errd]; cbn [fst launched];
     [| destruct q as [xq | rc out err]; cbn [launched];
        [| destruct (Z.eqb_spec rc 0) as [-> | Hrc] ] ] ];
  break_cases; try congruence; eauto 10.
Qed.

(** A user that the directory knows, and one that it does not. *)
Example system_user_exists_answers :
  fst (system_user_exists os_fine default_authenticator alice epoch) =
    Ok true /\
  fst (system_user_exists (os_failing "ipa" 2) default_authenticator alice
         epoch) = Ok false.
Proof. split; reflexivity. Qed.

(** C6, as the claim has it, fails: with no [ipa] program installed the
    query cannot be launched and [system_user_exists] raises the
    [FileNotFoundError] instead of returning [False]. *)
Lemma system_user_exists_raises :
  fst (system_user_exists (os_without "ipa") default_authenticator alice
         epoch) = Raise (OSError (enoent "ipa")).
Proof. reflexivity. Qed.

Lemma add_system_user_eq (os : OS) self (u : user)
  (w : world) (cmd : list string) :
  build_user_add_cmd self u = inr cmd ->
  let w1 := after_run os w (kinit_argv self) in
  let w2 := after_run os w1 cmd in
  add_system_user os self u w =
  match reply_to os w (kinit_argv self) with
  | LaunchFault e => (Raise (RuntimeError (could_not_call u cmd e)), w1)
  | Exited _ _ _ =>
      (match reply_to os w2 (kdestroy_argv self) with
       | LaunchFault e => Raise (RuntimeError (could_not_call u cmd e))
       | Exited _ _ _ =>
           match reply_to os w1 cmd with
           | LaunchFault e => Raise (RuntimeError (could_not_call u cmd e))
           | Exited rc out err =>
               if rc =? 0 then Ok tt
               else Raise (RuntimeError
                      (returned_with_an_error u cmd
                         (mk_called_process_error rc cmd out err)))
           end
       end, after_run os w2 (kdestroy_argv self))
  end.
Proof.
  intros Hcmd w1 w2. unfold add_system_user, try_except, bind.
  rewrite Hcmd, kerberos_ticket_eq. fold w1.
  destruct (reply_to os w (kinit_argv self)) as [ek | ? ? ?];
    [reflexivity |].
  cbn zeta. rewrite subprocess_run_eq. cbn [fst snd andb]. fold w2.
  destruct (reply_to os w2 (kdestroy_argv self)) as [ed | ? ? ?];
    [reflexivity |].
  destruct (reply_to os w1 cmd) as [e | st so se]; [reflexivity |].
  cbn [andb]. destruct (st =? 0); reflexivity.
Qed.

(** C5, as the code has it by design.  When the configured command string
    cannot be tokenized, [add_system_user] raises the tokenizer's
    [ValueError] and runs nothing.  Otherwise, when both credential
    commands ([kinit] and [kdestroy]) are launched, the directory-mutate
    command is handed to [subprocess.run] once, between them, and
    [add_system_user] returns exactly when that command exited with status
    0; it raises in exactly two cases, both a [RuntimeError] that names
    the user and the directory-mutate command: "could not call", with the
    [OSError] of a directory-mutate command that could not be launched,
    and "returned with an error", with the [CalledProcessError] of a
    directory-mutate command that exited with a non-zero status.  (What is
    raised when [kinit] or [kdestroy] cannot be launched is left out
    here.) *)
Theorem add_system_user_spec (os : OS) self (u : user) (w : world) :
  (forall msg,
     build_user_add_cmd self u = inl msg ->
     add_system_user os self u w = (Raise (ValueError msg), w)) /\
  (forall cmd,
     build_user_add_cmd self u = inr cmd ->
     let w1 := after_run os w (kinit_argv self) in
     let w2 := after_run os w1 cmd in
     let k := reply_to os w (kinit_argv self) in
     let c := reply_to os w1 cmd in
     let d := reply_to os w2 (kdestroy_argv self) in
     let r := fst (add_system_user os self u w) in
     let w3 := snd (add_system_user os self u w) in
     launched k = true ->
     launched d = true ->
     (r = Ok tt <-> exists out err, c = Exited 0 out err) /\
     (forall oe,
        c = LaunchFault oe <->
        r = Raise (RuntimeError (could_not_call u cmd oe))) /\
     (forall rc out err,
        c = Exited rc out err /\ rc <> 0 <->
        r = Raise (RuntimeError
                     (returned_with_an_error u cmd
                        (mk_called_process_error rc cmd out err)))) /\
     (forall e,
        r = Raise e ->
        (exists oe, c = LaunchFault oe) \/
        (exists rc out err, c = Exited rc out err /\ rc <> 0)) /\
     trace w3 =
       trace w ++ [(now w, Run (kinit_argv self) k);
                   (now w1, Run cmd c);
                   (now w2, Run (kdestroy_argv self) d)]).
Proof.
  split.
  { intros msg Hcmd. unfold add_system_user. rewrite Hcmd. reflexivity. }
  intros cmd Hcmd w1 w2 k c d r w3 Hk Hd. subst r w3.
  rewrite (add_system_user_eq os self u w cmd Hcmd).
  fold w1 w2 k c d.
  assert (Htrace :
    trace (after_run os w2 (kdestroy_argv self)) =
    trace w ++ [(now w, Run (kinit_argv self) k);
                (now w1, Run cmd c);
                (now w2, Run (kdestroy_argv self) d)]).
  { apply after_three_runs. }
  clearbody k c d.
  destruct k as [xk | rck outk errk]; [discriminate Hk |].
  destruct d as [xd | rcd outd errd]; [discriminate Hd |].
  cbn [fst snd].
  destruct c as [xc | rc out err];
    [| destruct (Z.eqb_spec rc 0) as [-> | Hrc] ].
  - split; [split; [intros H; discriminate H
                   | intros (o & e & H); discriminate H] |].
    split; [intros oe; split; intros H; injection H as ->; reflexivity |].
    split; [intros rc out err; split;
            [intros [H _]; discriminate H | intros H; discriminate H] |].
    split; [intros e _; left; eauto | exact Htrace].
  - split; [split; [eauto | reflexivity] |].
    split; [intros oe; split; intros H; discriminate H |].
    split; [intros rc out' err'; split;
            [intros [H Hne]; injection H as <- _ _; now destruct Hne
            | intros H; discriminate H] |].
    split; [intros e H; discriminate H | exact Htrace].
  - split; [split; [intros H; discriminate H
                   | intros (o & e & H); injection H as -> _ _;
                     now destruct Hrc] |].
    split; [intros oe; split; intros H; discriminate H |].
    split; [intros rc' out' err'; split;
            [intros [H _]; injection H as <- <- <-; reflexivity
            | intros H; injection H as <- <- <-; split;
              [reflexivity | exact Hrc]] |].
    split; [intros e _; right; eauto | exact Htrace].
Qed.

(** The default command exits with status 1: "returned with an error". *)
Lemma add_system_user_spec_witness :
  fst (add_system_user (os_failing "ipa_create_user.py" 1)
         default_authenticator alice epoch) =
  Raise (RuntimeError
           (returned_with_an_error alice
              ["ipa_create_user.py"; "alice"; "--group"; "def-sponsor00"]
              (mk_called_process_error 1
                 ["ipa_create_user.py"; "alice"; "--group"; "def-sponsor00"]
                 "" "failed"))).
Proof.
  apply (proj2 (add_system_user_spec (os_failing "ipa_create_user.py" 1)
                  default_authenticator alice epoch)
           ["ipa_create_user.py"; "alice"; "--group"; "def-sponsor00"]
           eq_refl eq_refl eq_refl).
  split; [reflexivity | discriminate].
Defined.

(** C5, as the claim has it, fails three times.  With no [kdestroy]
    program installed the directory-mutate command is launched and exits
    with status 0, and [add_system_user] still raises, blaming the
    directory-mutate command for a fault of [kdestroy].  With no [kinit]
    program installed it raises the same way without having attempted the
    directory-mutate command.  With an unbalanced quote in the configured
    command string it raises a [ValueError], not a [RuntimeError]. *)
Lemma add_system_user_other_failures :
  let cmd := ["ipa_create_user.py"; "alice"; "--group"; "def-sponsor00"] in
  (reply_to (os_without "kdestroy")
     (after_run (os_without "kdestroy") epoch
        (kinit_argv default_authenticator)) cmd = Exited 0 "ok" "" /\
   fst (add_system_user (os_without "kdestroy") default_authenticator alice
          epoch) =
     Raise (RuntimeError (could_not_call alice cmd (enoent "kdestroy")))) /\
  (count_runs cmd
     (trace (snd (add_system_user (os_without "kinit")
                    default_authenticator alice epoch))) = 0%nat /\
   fst (add_system_user (os_without "kinit") default_authenticator alice
          epoch) =
     Raise (RuntimeError (could_not_call alice cmd (enoent "kinit")))) /\
  add_system_user os_fine (with_user_add_cmd "ipa_create_user.py 'a")
    alice epoch =
    (Raise (ValueError "No closing quotation"), epoch).
Proof. repeat split. Qed.

(** C9.  The command that [add_system_user] runs is the tokens of the
    configured command string, then the user's name, then ["--group"] and
    the default group when the default group is not empty, and nothing
    else; it is the second command of the scope, between [kinit] and
    [kdestroy]. *)
Theorem add_system_user_command (os : OS) self (u : user)
  (w : world) (toks : list string) :
  shlex_split (user_add_cmd self) = inr toks ->
  let cmd :=
    toks ++ [name u] ++
    (if (default_group self =? "")%string then []
     else ["--group"; default_group self]) in
  let w1 := after_run os w (kinit_argv self) in
  let w2 := after_run os w1 cmd in
  build_user_add_cmd self u = inr cmd /\
  (launched (reply_to os w (kinit_argv self)) = true ->
   trace (snd (add_system_user os self u w)) =
   trace w ++ [(now w, Run (kinit_argv self)
                         (reply_to os w (kinit_argv self)));
               (now w1, Run cmd (reply_to os w1 cmd));
               (now w2, Run (kdestroy_argv self)
                          (reply_to os w2 (kdestroy_argv self)))]).
Proof.
  intros Htoks cmd w1 w2.
  assert (Hcmd : build_user_add_cmd self u = inr cmd).
  { unfold build_user_add_cmd, truthy. rewrite Htoks. subst cmd.
    destruct (default_group self =? "")%string; cbn [negb].
    - now rewrite app_nil_r.
    - now rewrite <- app_assoc. }
  split; [exact Hcmd |].
  intros Hk. rewrite (add_system_user_eq os self u w cmd Hcmd).
  fold w1 w2.
  destruct (reply_to os w (kinit_argv self)) eqn:Hr; [discriminate Hk |].
  cbn [snd]. rewrite <- Hr. apply after_three_runs.
Qed.

Lemma add_system_user_command_witness :
  shlex_split (user_add_cmd default_authenticator) =
    inr ["ipa_create_user.py"] /\
  build_user_add_cmd default_authenticator alice =
    inr ["ipa_create_user.py"; "alice"; "--group"; "def-sponsor00"].
Proof.
  split; [reflexivity |].
  apply (add_system_user_command os_fine default_authenticator alice epoch
           ["ipa_create_user.py"]).
  reflexivity.
Defined.

(** ** The pre-creation hook *)

Lemma pre_creation_hook_eq (os : OS) self (u : user)
  (w : world) :
  pre_creation_hook os self u w =
  match fst (system_user_exists os self u w) with
  | Ok true => (Ok tt, snd (system_user_exists os self u w))
  | Ok false => add_system_user os self u (snd (system_user_exists os self u w))
  | Raise e => (Raise e, snd (system_user_exists os self u w))
  end.
Proof.
  unfold pre_creation_hook, bind.
  destruct (system_user_exists os self u w) as [[[|] | e] w1]; reflexivity.
Qed.

(** C7.  Two calls of the pre-creation hook in a row, for a user that the
    directory does not know at the first call and knows at the second: the
    first call is the query followed by one call of [add_system_user], the
    second call is the query alone and returns.  Together they are query,
    [add_system_user], query: one creation.  (Whether that creation
    succeeded plays no part.) *)
Theorem pre_creation_hook_twice (os : OS) self (u : user)
  (w : world) :
  let w1 := snd (system_user_exists os self u w) in
  let w2 := snd (add_system_user os self u w1) in
  let w3 := snd (system_user_exists os self u w2) in
  fst (system_user_exists os self u w) = Ok false ->
  fst (system_user_exists os self u w2) = Ok true ->
  pre_creation_hook os self u w = add_system_user os self u w1 /\
  pre_creation_hook os self u w2 = (Ok tt, w3) /\
  snd (pre_creation_hook os self u
         (snd (pre_creation_hook os self u w))) = w3.
Proof.
  intros w1 w2 w3 Hfirst Hsecond.
  assert (H1 : pre_creation_hook os self u w = add_system_user os self u w1).
  { rewrite pre_creation_hook_eq, Hfirst. reflexivity. }
  assert (H2 : pre_creation_hook os self u w2 = (Ok tt, w3)).
  { rewrite pre_creation_hook_eq, Hsecond. reflexivity. }
  repeat split; [exact H1 | exact H2 |].
  rewrite H1. fold w2. rewrite H2. reflexivity.
Qed.

(** The directory learns of alice by the first call. *)
Lemma pre_creation_hook_twice_witness :
  snd (pre_creation_hook os_directory default_authenticator alice
         (snd (pre_creation_hook os_directory default_authenticator alice
                 epoch))) =
  snd (system_user_exists os_directory default_authenticator alice
         (snd (add_system_user os_directory default_authenticator alice
                 (snd (system_user_exists os_directory default_authenticator
                         alice epoch))))).
Proof.
  apply (pre_creation_hook_twice os_directory default_authenticator alice
           epoch); reflexivity.
Defined.

(** In that run the directory-mutate command is run once, in nine calls
    of [subprocess.run]. *)
Example pre_creation_hook_twice_run :
  let w2 := snd (pre_creation_hook os_directory default_authenticator alice
                   (snd (pre_creation_hook os_directory
                           default_authenticator alice epoch))) in
  count_runs ["ipa_create_user.py"; "alice"; "--group"; "def-sponsor00"]
    (trace w2) = 1%nat /\
  List.length (trace w2) = 9%nat.
Proof. split; reflexivity. Qed.

(** ** The provisioning gate *)

(** C8.  A spawner that has been active before: [pre_spawn_start] returns
    at once, whatever the fuel.  Nothing is probed, run, logged or waited
    for: the world is left as it was. *)
Theorem pre_spawn_start_prior_activity (os : OS) (fuel : nat)
  self (u : user) (t : Z) (slurm : bool) (w : world) :
  pre_spawn_start os fuel self u
    {| last_activity := Some t; is_SlurmSpawner := slurm |} w =
  Some (Ok tt, w).
Proof. reflexivity. Qed.

Lemma poll_body_eq (deadline : Z) (msg : string) (w : world) :
  poll_body deadline msg w =
  if deadline <=? now w + 1 * ms_per_s
  then (Raise CancelledError,
        {| now := Z.max deadline (now w);
           trace := trace w ++ [(now w, Warning msg); (now w, Sleep 1)] |})
  else (Ok tt,
        {| now := now w + 1 * ms_per_s;
           trace := trace w ++ [(now w, Warning msg); (now w, Sleep 1)] |}).
Proof.
  unfold poll_body, bind, log_warning, asyncio_sleep; cbn [now trace].
  rewrite <- app_assoc. cbn [app].
  destruct (deadline <=? now w + 1 * ms_per_s); reflexivity.
Qed.

Lemma home_is_missing_one_poll (os : OS) (u : user) :
  one_poll (home_poll u) (home_is_missing os u).
Proof.
  intros w. unfold home_is_missing, bind, path_exists, ret.
  destruct (probe os w (home_of u)) as [b d]. cbn [fst snd].
  exists (PathExists (home_of u) b), d. split; [reflexivity |].
  exists b. split; reflexivity.
Qed.

Lemma slurm_is_missing_one_poll (os : OS) (u : user) :
  one_poll (slurm_poll u) (slurm_is_missing os u).
Proof.
  intros w. unfold slurm_is_missing, bind, ret.
  rewrite subprocess_run_eq. cbn [andb].
  exists (Run (sacctmgr_argv u) (reply_to os w (sacctmgr_argv u))),
    (snd (spawn os w (sacctmgr_argv u))).
  destruct (reply_to os w (sacctmgr_argv u)) as [x | rc out err] eqn:Hr;
    cbn [fst snd]; (split; [unfold after_run; now rewrite Hr |]);
    eexists; (split; [reflexivity |]); reflexivity.
Qed.

(** *** One polling loop

    A loop [while cond: warn msg; sleep(1)] under a deadline, for a
    condition that makes one call. *)
Section PollingLoop.

Variables (deadline : Z) (msg : string).
Variables (Q : event -> result bool -> Prop) (cond : M bool).
Hypothesis cond_polls : one_poll Q cond.

Lemma one_poll_now (w : world) : now w <= now (snd (cond w)).
Proof.
  destruct (cond_polls w) as (e & d & -> & _).
  unfold log_event; cbn. lia.
Qed.

(** The log of the loop has the shape [polls]. *)
Lemma while_polls (fuel : nat) (w : world) (r : result unit) (w' : world) :
  while fuel cond (poll_body deadline msg) w = Some (r, w') ->
  exists new,
    trace w' = trace w ++ new /\
    polls deadline msg Q new r /\
    starts_at (now w) new /\
    now w <= now w'.
Proof.
  revert w r w'. induction fuel as [| fuel IH]; intros w r w' Hrun;
    [discriminate Hrun |].
  cbn [while] in Hrun.
  destruct (cond_polls w) as (e & d & Hw1 & HQ).
  destruct (cond w) as [rc w1]. cbn [fst snd] in Hw1, HQ. subst w1.
  assert (Hd : now w <= now (log_event e d w))
    by (unfold log_event; cbn; lia).
  destruct rc as [[|] | x].
  - rewrite poll_body_eq in Hrun.
    set (w1 := log_event e d w) in *.
    destruct (Z.leb_spec deadline (now w1 + 1 * ms_per_s)) as [Hle | Hlt].
    + injection Hrun as <- <-. cbn [now trace].
      exists [(now w, e); (now w1, Warning msg); (now w1, Sleep 1)].
      split; [subst w1; cbn; now rewrite <- app_assoc |].
      split; [now apply polls_expired |].
      split; [now eexists; eexists | lia].
    + apply IH in Hrun. cbn [now trace] in Hrun.
      destruct Hrun as (new & Htr & Hp & Hs & Hn).
      exists ((now w, e) :: (now w1, Warning msg) :: (now w1, Sleep 1)
              :: new).
      split; [rewrite Htr; subst w1; cbn; now rewrite <- !app_assoc |].
      split; [now apply polls_again |].
      split; [now eexists; eexists |].
      unfold ms_per_s in *. lia.
  - injection Hrun as <- <-.
    exists [(now w, e)]. split; [reflexivity |].
    split; [now apply polls_satisfied |].
    split; [now eexists; eexists | exact Hd].
  - injection Hrun as <- <-.
    exists [(now w, e)]. split; [reflexivity |].
    split; [now apply polls_raised |].
    split; [now eexists; eexists | exact Hd].
Qed.

(** Fuel beyond the seconds left to the deadline is enough. *)
Lemma while_terminates (fuel : nat) (w : world) :
  (0 < fuel)%nat ->
  deadline - now w < ms_per_s * Z.of_nat fuel ->
  exists r w', while fuel cond (poll_body deadline msg) w = Some (r, w').
Proof.
  revert w. induction fuel as [| fuel IH]; intros w Hpos Hfuel; [lia |].
  cbn [while].
  pose proof (one_poll_now w) as Hnow.
  destruct (cond w) as [[[|] | x] w1]; cbn [snd] in Hnow; eauto.
  rewrite poll_body_eq.
  destruct (Z.leb_spec deadline (now w1 + 1 * ms_per_s)) as [Hle | Hlt];
    eauto.
  apply IH; cbn [now]; unfold ms_per_s in *; lia.
Qed.

(** A condition that is never satisfied: the loop ends by the deadline
    cutting a sleep short, no earlier than the deadline and no later than
    the deadline (or the start, if later) plus the time of one poll. *)
Lemma while_never (fuel : nat) (w : world) :
  (forall w0, fst (cond w0) = Ok true) ->
  (0 < fuel)%nat ->
  deadline - now w < ms_per_s * Z.of_nat fuel ->
  exists w',
    while fuel cond (poll_body deadline msg) w =
      Some (Raise CancelledError, w') /\
    deadline <= now w' /\
    forall dmax,
      (forall w0, now (snd (cond w0)) <= now w0 + dmax) ->
      now w' <= Z.max deadline (now w) + dmax.
Proof.
  intros Hnever.
  revert w. induction fuel as [| fuel IH]; intros w Hpos Hfuel; [lia |].
  cbn [while].
  pose proof (one_poll_now w) as Hnow.
  pose proof (Hnever w) as Hr.
  assert (Hdur : forall dmax,
             (forall w0, now (snd (cond w0)) <= now w0 + dmax) ->
             now (snd (cond w)) <= now w + dmax) by (intros dmax H; apply H).
  destruct (cond w) as [rc w1]; cbn [fst snd] in Hnow, Hr, Hdur. subst rc.
  rewrite poll_body_eq.
  destruct (Z.leb_spec deadline (now w1 + 1 * ms_per_s)) as [Hle | Hlt].
  - eexists. split; [reflexivity |]. cbn [now]. split; [lia |].
    intros dmax Hd. specialize (Hdur dmax Hd). lia.
  - destruct (IH {| now := now w1 + 1 * ms_per_s;
                    trace := trace w1 ++
                             [(now w1, Warning msg); (now w1, Sleep 1)] |})
      as (w' & Hrun & Hlo & Hhi);
      [cbn [now]; unfold ms_per_s in *; lia .. |].
    exists w'. split; [exact Hrun |]. split; [exact Hlo |].
    intros dmax Hd. specialize (Hhi dmax Hd). specialize (Hdur dmax Hd).
    cbn [now] in Hhi. lia.
Qed.

End PollingLoop.

(** More fuel changes nothing. *)
Lemma while_more_fuel (cond : M bool) (body : M unit) (fuel fuel' : nat)
  (w : world) (out : result unit * world) :
  (fuel <= fuel')%nat ->
  while fuel cond body w = Some out ->
  while fuel' cond body w = Some out.
Proof.
  revert fuel' w. induction fuel as [| fuel IH]; intros fuel' w Hle Hrun;
    [discriminate Hrun |].
  destruct fuel' as [| fuel']; [lia |].
  cbn [while] in *.
  destruct (cond w) as [[[|] | x] w1]; try exact Hrun.
  destruct (body w1) as [[[] | x] w2]; try exact Hrun.
  apply IH; [lia | exact Hrun].
Qed.

(** [pre_spawn_start] for a spawner that was never active, loop by
    loop. *)
Lemma pre_spawn_start_eq (os : OS) (fuel : nat) self
  (u : user) (slurm : bool) (w : world) :
  let deadline := now w + pre_spawn_timeout self * ms_per_s in
  pre_spawn_start os fuel self u (first_spawn slurm) w =
  match while fuel (home_is_missing os u)
          (poll_body deadline (home_missing u)) w with
  | None => None
  | Some (Raise e, w1) => Some (on_exit (Raise e), w1)
  | Some (Ok _, w1) =>
      if slurm then
        match while fuel (slurm_is_missing os u)
                (poll_body deadline (slurm_missing u)) w1 with
        | None => None
        | Some (r, w2) => Some (on_exit r, w2)
        end
      else Some (Ok tt, w1)
  end.
Proof.
  intros deadline.
  unfold pre_spawn_start, first_spawn, asyncio_timeout, bindF, liftF, ret;
    cbn [last_activity is_SlurmSpawner].
  fold deadline.
  change (log_warning (home_missing u) ;;; asyncio_sleep deadline 1)
    with (poll_body deadline (home_missing u)).
  change (log_warning (slurm_missing u) ;;; asyncio_sleep deadline 1)
    with (poll_body deadline (slurm_missing u)).
  destruct (while fuel (home_is_missing os u) _ w) as [[[[] | e] w1] |];
    [| destruct e; reflexivity | reflexivity].
  destruct slurm; [| reflexivity].
  destruct (while fuel (slurm_is_missing os u) _ w1)
    as [[[[] | e] w2] |]; [| destruct e |]; reflexivity.
Qed.

(** The outcome of the gate does not depend on the fuel, once there is
    enough of it. *)
Lemma pre_spawn_start_more_fuel (os : OS) (fuel fuel' : nat) self
  (u : user) (sp : spawner) (w : world) (out : result unit * world) :
  (fuel <= fuel')%nat ->
  pre_spawn_start os fuel self u sp w = Some out ->
  pre_spawn_start os fuel' self u sp w = Some out.
Proof.
  intros Hle. unfold pre_spawn_start.
  destruct (last_activity sp); [exact (fun H => H) |].
  unfold asyncio_timeout, bindF.
  destruct (while fuel (home_is_missing os u) _ w) as [[rh w1] |] eqn:Hh;
    [| discriminate].
  rewrite (while_more_fuel _ _ fuel fuel' w _ Hle Hh).
  destruct rh as [[] | e]; [| exact (fun H => H)].
  destruct (is_SlurmSpawner sp); [| exact (fun H => H)].
  destruct (while fuel (slurm_is_missing os u) _ w1) as [[rs w2] |] eqn:Hs;
    [| discriminate].
  rewrite (while_more_fuel _ _ fuel fuel' w1 _ Hle Hs).
  exact (fun H => H).
Qed.

(** *** Reading a loop's log *)

(** A loop that ends normally ends on a satisfied poll. *)
Lemma polls_ok_last (deadline : Z) (msg : string)
  (Q : event -> result bool -> Prop) (tr : list (Z * event))
  (r : result unit) :
  polls deadline msg Q tr r ->
  r = Ok tt ->
  exists pre t e, tr = pre ++ [(t, e)] /\ Q e (Ok false).
Proof.
  induction 1 as [t e HQ | t e x HQ | t t1 e HQ Ht Hd
                  | t t1 e rest r HQ Ht Hd Hs Hp IH]; intros Hr;
    try discriminate Hr.
  - exists [], t, e. split; [reflexivity | exact HQ].
  - destruct (IH Hr) as (pre & t' & e' & -> & HQ').
    exists ((t, e) :: (t1, Warning msg) :: (t1, Sleep 1) :: pre), t', e'.
    split; [reflexivity | exact HQ'].
Qed.

(** A loop that ends by an exception ends on a poll that raised it, or on
    a round whose sleep the deadline cut short. *)
Lemma polls_raise_last (deadline : Z) (msg : string)
  (Q : event -> result bool -> Prop) (tr : list (Z * event))
  (r : result unit) :
  polls deadline msg Q tr r ->
  forall x, r = Raise x ->
  (exists pre t e, tr = pre ++ [(t, e)] /\ Q e (Raise x)) \/
  (x = CancelledError /\
   exists pre t t1 e,
     tr = pre ++ [(t, e); (t1, Warning msg); (t1, Sleep 1)] /\
     Q e (Ok true) /\ deadline <= t1 + 1 * ms_per_s).
Proof.
  induction 1 as [t e HQ | t e x' HQ | t t1 e HQ Ht Hd
                  | t t1 e rest r HQ Ht Hd Hs Hp IH]; intros x Hr;
    try discriminate Hr.
  - injection Hr as ->. left. exists [], t, e. split; [reflexivity | exact HQ].
  - injection Hr as <-. right. split; [reflexivity |].
    exists [], t, t1, e. repeat split; assumption.
  - destruct (IH x Hr) as [(pre & t' & e' & -> & HQ')
                          | (-> & pre & t' & t1' & e' & -> & HQ' & Hd')].
    + left.
      exists ((t, e) :: (t1, Warning msg) :: (t1, Sleep 1) :: pre), t', e'.
      split; [reflexivity | exact HQ'].
    + right. split; [reflexivity |].
      exists ((t, e) :: (t1, Warning msg) :: (t1, Sleep 1) :: pre),
        t', t1', e'.
      repeat split; assumption.
Qed.

(** The home-directory loop hands nothing to [subprocess.run]. *)
Lemma polls_home_no_run (deadline : Z) (u : user) (tr : list (Z * event))
  (r : result unit) :
  polls deadline (home_missing u) (home_poll u) tr r ->
  forall t argv reply, ~ In (t, Run argv reply) tr.
Proof.
  induction 1 as [t e HQ | t e x HQ | t t1 e HQ Ht Hd
                  | t t1 e rest r HQ Ht Hd Hs Hp IH];
    intros t' argv reply Hin; destruct HQ as (b & -> & _);
    cbn [In] in Hin;
    repeat match goal with
      | H : _ \/ _ |- _ => destruct H as [H | H]
      | H : (_, _) = (_, _) |- _ => discriminate H
      | H : False |- _ => destruct H
      end.
  exact (IH _ _ _ Hin).
Qed.

Lemma last_warning_app (tr1 tr2 : list (Z * event)) :
  last_warning (tr1 ++ tr2) =
  match last_warning tr2 with
  | Some m => Some m
  | None => last_warning tr1
  end.
Proof.
  induction tr1 as [| [t e] tr1 IH]; cbn [app last_warning].
  - destruct (last_warning tr2); reflexivity.
  - rewrite IH. destruct (last_warning tr2); reflexivity.
Qed.

(** *** The gate *)

(** With fuel beyond [pre_spawn_timeout] the gate ends. *)
Lemma pre_spawn_start_terminates (os : OS) (fuel : nat)
  self (u : user) (slurm : bool) (w : world) :
  Z.max 0 (pre_spawn_timeout self) < Z.of_nat fuel ->
  exists r w',
    pre_spawn_start os fuel self u (first_spawn slurm) w = Some (r, w').
Proof.
  intros Hfuel. rewrite (pre_spawn_start_eq os fuel self u slurm w).
  cbn zeta. set (deadline := now w + pre_spawn_timeout self * ms_per_s).
  destruct (while_terminates deadline (home_missing u) (home_poll u)
              (home_is_missing os u) (home_is_missing_one_poll os u)
              fuel w) as (rh & w1 & Hrun);
    [lia | subst deadline; unfold ms_per_s; lia |].
  rewrite Hrun.
  destruct (while_polls deadline (home_missing u) (home_poll u)
              (home_is_missing os u) (home_is_missing_one_poll os u)
              fuel w rh w1 Hrun) as (_ & _ & _ & _ & Hnow).
  destruct rh as [[] | e]; [| eauto].
  destruct slurm; [| eauto].
  destruct (while_terminates deadline (slurm_missing u) (slurm_poll u)
              (slurm_is_missing os u) (slurm_is_missing_one_poll os u)
              fuel w1) as (rs & w2 & Hrun2);
    [lia | subst deadline; unfold ms_per_s; lia |].
  rewrite Hrun2. eauto.
Qed.

(** C4.  A first spawn.  The log of the gate is the log [th] of the
    home-directory loop followed by the log [ts] of the accounting loop.
    The home-directory loop runs no command.  The accounting loop polls
    only for a [SlurmSpawner] and only once the home-directory loop has
    ended on a probe that found the directory; otherwise [ts] is empty.
    Both logs have the shape [polls] for one and the same deadline, the
    time of the call plus [pre_spawn_timeout] seconds, and for the same
    sleep of one second: in either loop a sleep is woken one second later
    and strictly before that deadline, or cut short by it.  With fuel
    beyond [pre_spawn_timeout] the gate does end. *)
Theorem pre_spawn_start_polling (os : OS) (fuel : nat) self
  (u : user) (slurm : bool) (w : world) :
  let deadline := now w + pre_spawn_timeout self * ms_per_s in
  (forall r w',
     pre_spawn_start os fuel self u (first_spawn slurm) w = Some (r, w') ->
     exists th ts rh,
       trace w' = trace w ++ th ++ ts /\
       polls deadline (home_missing u) (home_poll u) th rh /\
       (forall t argv reply, ~ In (t, Run argv reply) th) /\
       ((ts = [] /\ r = on_exit rh /\ (slurm = false \/ rh <> Ok tt)) \/
        (slurm = true /\
         (exists pre t, th = pre ++ [(t, PathExists (home_of u) true)]) /\
         exists rs,
           polls deadline (slurm_missing u) (slurm_poll u) ts rs /\
           r = on_exit rs))) /\
  (Z.max 0 (pre_spawn_timeout self) < Z.of_nat fuel ->
   exists r w',
     pre_spawn_start os fuel self u (first_spawn slurm) w = Some (r, w')).
Proof.
  intros deadline. split; [| apply pre_spawn_start_terminates].
  rewrite (pre_spawn_start_eq os fuel self u slurm w). fold deadline.
  pose proof (while_polls deadline (home_missing u) (home_poll u)
                (home_is_missing os u) (home_is_missing_one_poll os u)
                fuel w) as Hhome.
  intros r w' Hrun.
  destruct (while fuel (home_is_missing os u) _ w)
    as [[rh w1] |]; [| discriminate Hrun].
  destruct (Hhome rh w1 eq_refl) as (th & Htr & Hp & _ & _).
  pose proof (polls_home_no_run deadline u th rh Hp) as Hno.
  destruct rh as [[] | e].
  - destruct slurm.
    + destruct (while fuel (slurm_is_missing os u) _ w1)
        as [[rs w2] |] eqn:Hs; [| discriminate Hrun].
      injection Hrun as <- <-.
      destruct (while_polls deadline (slurm_missing u) (slurm_poll u)
                  (slurm_is_missing os u) (slurm_is_missing_one_poll os u)
                  fuel w1 rs w2 Hs) as (ts & Htr2 & Hp2 & _ & _).
      exists th, ts, (Ok tt).
      split; [now rewrite Htr2, Htr, app_assoc |].
      split; [exact Hp |]. split; [exact Hno |]. right.
      split; [reflexivity |]. split; [| now exists rs].
      destruct (polls_ok_last _ _ _ _ _ Hp eq_refl)
        as (pre & t & e & -> & (b & -> & Hb)).
      exists pre, t. destruct b; [reflexivity | discriminate Hb].
    + injection Hrun as <- <-. exists th, [], (Ok tt).
      rewrite app_nil_r. repeat split; try assumption.
      left. repeat split. now left.
  - injection Hrun as <- <-. exists th, [], (Raise e).
    rewrite app_nil_r. repeat split; try assumption.
    left. repeat split. right. discriminate.
Qed.

Lemma home_is_missing_never (os : OS) (u : user) :
  (forall w, fst (probe os w (home_of u)) = false) ->
  forall w, fst (home_is_missing os u w) = Ok true.
Proof.
  intros Hnever w. specialize (Hnever w).
  unfold home_is_missing, bind, path_exists, ret.
  destruct (probe os w (home_of u)) as [b d]. cbn [fst] in *. now subst b.
Qed.

Lemma home_is_missing_now (os : OS) (u : user) (w : world) :
  now (snd (home_is_missing os u w)) =
  now w + Z.of_N (snd (probe os w (home_of u))).
Proof.
  unfold home_is_missing, bind, path_exists, ret.
  destruct (probe os w (home_of u)) as [b d]. reflexivity.
Qed.

(** C3, as the code has it.  The home directory never appears: a first
    spawn fails with [TimeoutError], no earlier than [pre_spawn_timeout]
    seconds after the call.  The upper bound is one of the timing of
    [log_warning] and [asyncio_sleep] as they are defined above, where
    logging a warning takes no time and the event loop is otherwise idle,
    so that every sleep is woken or cancelled exactly on time: under that
    timing, when the time-out is not negative and no probe of the
    directory takes longer than one second, the spawn fails no later than
    [pre_spawn_timeout] plus one second after the call. *)
Theorem pre_spawn_start_home_never (os : OS) (fuel : nat)
  self (u : user) (slurm : bool) (w : world) :
  (forall w0, fst (probe os w0 (home_of u)) = false) ->
  Z.max 0 (pre_spawn_timeout self) < Z.of_nat fuel ->
  exists w',
    pre_spawn_start os fuel self u (first_spawn slurm) w =
      Some (Raise (OSError bare_TimeoutError), w') /\
    pre_spawn_timeout self * ms_per_s <= now w' - now w /\
    (0 <= pre_spawn_timeout self ->
     (forall w0, Z.of_N (snd (probe os w0 (home_of u))) <= 1 * ms_per_s) ->
     now w' - now w <= pre_spawn_timeout self * ms_per_s + 1 * ms_per_s).
Proof.
  intros Hnever Hfuel.
  rewrite (pre_spawn_start_eq os fuel self u slurm w). cbn zeta.
  set (deadline := now w + pre_spawn_timeout self * ms_per_s).
  destruct (while_never deadline (home_missing u) (home_poll u)
              (home_is_missing os u) (home_is_missing_one_poll os u)
              fuel w (home_is_missing_never os u Hnever))
    as (w' & Hrun & Hlo & Hhi);
    [lia | subst deadline; unfold ms_per_s; lia |].
  exists w'. rewrite Hrun. split; [reflexivity |].
  split; [subst deadline; lia |].
  intros Hpos Hquick.
  specialize (Hhi (1 * ms_per_s)).
  assert (Hd : forall w0,
             now (snd (home_is_missing os u w0)) <= now w0 + 1 * ms_per_s).
  { intros w0. rewrite home_is_missing_now. specialize (Hquick w0). lia. }
  specialize (Hhi Hd). subst deadline. unfold ms_per_s in *. lia.
Qed.

(** No home directory, probes of 200 ms, a time-out of 2 s. *)
Lemma pre_spawn_start_home_never_witness :
  exists w',
    pre_spawn_start (os_gate false 200 "") 3 (with_timeout 2) alice
      (first_spawn false) epoch =
      Some (Raise (OSError bare_TimeoutError), w') /\
    2 * ms_per_s <= now w' - now epoch /\
    now w' - now epoch <= 2 * ms_per_s + 1 * ms_per_s.
Proof.
  destruct (pre_spawn_start_home_never (os_gate false 200 "") 3
              (with_timeout 2) alice false epoch)
    as (w' & Hrun & Hlo & Hhi).
  - intros w0. reflexivity.
  - reflexivity.
  - exists w'. split; [exact Hrun |]. split; [exact Hlo |].
    apply Hhi.
    + discriminate.
    + intros w0. discriminate.
Defined.

(** C3, as the claim has it, fails twice.  A probe of the home directory
    that blocks for 5 s under a time-out of 2 s: the gate fails 5 s after
    the call, past the 3 s of the claim.  And a negative time-out of -5 s:
    the gate fails at the first sleep, 0 s after the call, which is later
    than -5 s plus one second. *)
Lemma pre_spawn_start_fails_late :
  (exists w',
     pre_spawn_start (os_gate false 5000 "") 3 (with_timeout 2) alice
       (first_spawn false) epoch =
       Some (Raise (OSError bare_TimeoutError), w') /\
     now w' - now epoch = 5000 /\
     2 * ms_per_s + 1 * ms_per_s < now w' - now epoch) /\
  (exists w',
     pre_spawn_start (os_gate false 0 "") 1 (with_timeout (-5)) alice
       (first_spawn false) epoch =
       Some (Raise (OSError bare_TimeoutError), w') /\
     now w' - now epoch = 0 /\
     -5 * ms_per_s + 1 * ms_per_s < now w' - now epoch).
Proof.
  split; eexists; (split; [reflexivity |]); split; reflexivity.
Qed.

Lemma slurm_is_missing_never (os : OS) (u : user) :
  (forall w, exists rc err,
     reply_to os w (sacctmgr_argv u) = Exited rc "" err) ->
  forall w, fst (slurm_is_missing os u w) = Ok true.
Proof.
  intros Hnever w. destruct (Hnever w) as (rc & err & Hr).
  unfold slurm_is_missing, bind, ret. rewrite subprocess_run_eq, Hr.
  reflexivity.
Qed.

(** The log of a loop that the deadline ended: its last warning is the
    loop's. *)
Lemma cut_short_last_warning (tr pre : list (Z * event)) (t t1 : Z)
  (e : event) (msg : string) :
  last_warning (tr ++ pre ++ [(t, e); (t1, Warning msg); (t1, Sleep 1)]) =
  Some msg.
Proof. rewrite !last_warning_app. destruct e; reflexivity. Qed.

(** C2, as the code has it.  With fuel beyond [pre_spawn_timeout] a
    first spawn ends.  It returns only on a poll that found the last
    applicable condition satisfied: the home directory for a local
    spawner, a non-empty accounting record for a [SlurmSpawner].  When it
    fails, either it could not launch [sacctmgr], and raises that
    [OSError], or it was ended by the deadline, and raises a bare
    [TimeoutError]: no message, no attribute, the same value whichever
    condition was unsatisfied.  In that case the log ends with the poll
    that found the condition unsatisfied, the warning that names it and
    the sleep that was cut short; the deadline falls no later than one
    second after that warning.  A gate whose home directory never appears
    does fail that way, its last warning naming the home folder; so does
    the gate of a [SlurmSpawner] whose home directory is there and whose
    accounting query keeps printing nothing, its last warning naming the
    Slurm account. *)
Theorem pre_spawn_start_timeout_error (os : OS) (fuel : nat)
  self (u : user) (slurm : bool) (w : world) :
  let deadline := now w + pre_spawn_timeout self * ms_per_s in
  let run := pre_spawn_start os fuel self u (first_spawn slurm) w in
  (Z.max 0 (pre_spawn_timeout self) < Z.of_nat fuel ->
   exists r w', run = Some (r, w')) /\
  (forall w',
     run = Some (Ok tt, w') ->
     exists pre t,
       if slurm then
         exists rc out err,
           out <> "" /\
           trace w' =
             trace w ++ pre ++
             [(t, Run (sacctmgr_argv u) (Exited rc out err))]
       else
         trace w' = trace w ++ pre ++ [(t, PathExists (home_of u) true)]) /\
  (forall e w',
     run = Some (Raise e, w') ->
     exists pre t,
       (slurm = true /\
        exists x,
          e = OSError x /\
          trace w' =
            trace w ++ pre ++ [(t, Run (sacctmgr_argv u) (LaunchFault x))]) \/
       (e = OSError bare_TimeoutError /\
        exists t1,
          deadline <= t1 + 1 * ms_per_s /\
          (trace w' =
             trace w ++ pre ++
             [(t, PathExists (home_of u) false);
              (t1, Warning (home_missing u)); (t1, Sleep 1)] \/
           (slurm = true /\
            exists rc err,
              trace w' =
                trace w ++ pre ++
                [(t, Run (sacctmgr_argv u) (Exited rc "" err));
                 (t1, Warning (slurm_missing u)); (t1, Sleep 1)])))) /\
  ((forall w0, fst (probe os w0 (home_of u)) = false) ->
   Z.max 0 (pre_spawn_timeout self) < Z.of_nat fuel ->
   exists w',
     run = Some (Raise (OSError bare_TimeoutError), w') /\
     last_warning (trace w') = Some (home_missing u)) /\
  (slurm = true ->
   fst (probe os w (home_of u)) = true ->
   (forall w0, exists rc err,
      reply_to os w0 (sacctmgr_argv u) = Exited rc "" err) ->
   Z.max 0 (pre_spawn_timeout self) < Z.of_nat fuel ->
   exists w',
     run = Some (Raise (OSError bare_TimeoutError), w') /\
     last_warning (trace w') = Some (slurm_missing u)).
Proof.
  intros deadline run.
  split; [now apply pre_spawn_start_terminates |].
  subst run. rewrite (pre_spawn_start_eq os fuel self u slurm w).
  fold deadline.
  pose proof (while_polls deadline (home_missing u) (home_poll u)
                (home_is_missing os u) (home_is_missing_one_poll os u)
                fuel w) as Hhome.
  assert (Hcut_home : forall w1,
    while fuel (home_is_missing os u) (poll_body deadline (home_missing u)) w
      = Some (Raise CancelledError, w1) ->
    exists pre t t1,
      deadline <= t1 + 1 * ms_per_s /\
      trace w1 = trace w ++ pre ++
                 [(t, PathExists (home_of u) false);
                  (t1, Warning (home_missing u)); (t1, Sleep 1)]).
  { intros w1 Hrun.
    destruct (Hhome _ _ Hrun) as (th & Htr & Hp & _ & _).
    destruct (polls_raise_last _ _ _ _ _ Hp _ eq_refl)
      as [(pre & t & e & _ & (b & _ & Hb))
         | (_ & pre & t & t1 & e & -> & (b & -> & Hb) & Hd)];
      [discriminate Hb |].
    exists pre, t, t1. split; [exact Hd |].
    rewrite Htr. destruct b; [discriminate Hb | reflexivity]. }
  assert (Hcut_slurm : forall w1 w2,
    while fuel (slurm_is_missing os u)
      (poll_body deadline (slurm_missing u)) w1
      = Some (Raise CancelledError, w2) ->
    exists pre t t1 rc err,
      deadline <= t1 + 1 * ms_per_s /\
      trace w2 = trace w1 ++ pre ++
                 [(t, Run (sacctmgr_argv u) (Exited rc "" err));
                  (t1, Warning (slurm_missing u)); (t1, Sleep 1)]).
  { intros w1 w2 Hrun.
    destruct (while_polls deadline (slurm_missing u) (slurm_poll u)
                (slurm_is_missing os u) (slurm_is_missing_one_poll os u)
                fuel w1 _ w2 Hrun) as (ts & Htr & Hp & _ & _).
    destruct (polls_raise_last _ _ _ _ _ Hp _ eq_refl)
      as [(pre & t & e & _ & (reply & _ & Hb))
         | (_ & pre & t & t1 & e & -> & (reply & -> & Hb) & Hd)].
    - destruct reply; discriminate Hb.
    - destruct reply as [x | rc out err]; [discriminate Hb |].
      exists pre, t, t1, rc, err. split; [exact Hd |].
      rewrite Htr. destruct out; [reflexivity | discriminate Hb]. }
  split; [| split; [| split]].
  - intros w' Hrun.
    destruct (while fuel (home_is_missing os u) _ w)
      as [[rh w1] |] eqn:Hh; [| discriminate Hrun].
    destruct rh as [[] | e0]; [| destruct e0; discriminate Hrun].
    destruct (Hhome _ _ eq_refl) as (th & Htr & Hp & _ & _).
    destruct (polls_ok_last _ _ _ _ _ Hp eq_refl)
      as (pre & t & e & -> & (b & -> & Hb)).
    destruct slurm.
    + destruct (while fuel (slurm_is_missing os u) _ w1)
        as [[rs w2] |] eqn:Hs; [| discriminate Hrun].
      injection Hrun as Hr <-.
      destruct rs as [[] | e1]; [| destruct e1; discriminate Hr].
      destruct (while_polls deadline (slurm_missing u) (slurm_poll u)
                  (slurm_is_missing os u) (slurm_is_missing_one_poll os u)
                  fuel w1 _ w2 Hs) as (ts & Htr2 & Hp2 & _ & _).
      destruct (polls_ok_last _ _ _ _ _ Hp2 eq_refl)
        as (pre2 & t2 & e2 & -> & (reply & -> & Hb2)).
      destruct reply as [x | rc out err]; [discriminate Hb2 |].
      exists ((pre ++ [(t, PathExists (home_of u) b)]) ++ pre2), t2.
      exists rc, out, err. split.
      * intros ->. discriminate Hb2.
      * now rewrite Htr2, Htr, <- !app_assoc.
    + injection Hrun as <-. exists pre, t. rewrite Htr.
      destruct b; [reflexivity | discriminate Hb].
  - intros e w' Hrun.
    destruct (while fuel (home_is_missing os u) _ w)
      as [[rh w1] |] eqn:Hh; [| discriminate Hrun].
    destruct rh as [[] | e0].
    + destruct slurm; [| discriminate Hrun].
      destruct (Hhome _ _ eq_refl) as (th & Htr & _).
      destruct (while fuel (slurm_is_missing os u) _ w1)
        as [[rs w2] |] eqn:Hs; [| discriminate Hrun].
      injection Hrun as Hr <-.
      destruct rs as [[] | e1]; [discriminate Hr |].
      destruct (while_polls deadline (slurm_missing u) (slurm_poll u)
                  (slurm_is_missing os u) (slurm_is_missing_one_poll os u)
                  fuel w1 _ w2 Hs) as (ts & Htr2 & Hp2 & _ & _).
      destruct (polls_raise_last _ _ _ _ _ Hp2 _ eq_refl)
        as [(pre & t & e2 & -> & (reply & -> & Hb))
           | (-> & _)].
      * destruct reply as [x | rc out err]; [| discriminate Hb].
        injection Hb as Hb. subst e1. cbn [on_exit] in Hr.
        injection Hr as <-.
        exists (th ++ pre), t. left. split; [reflexivity |].
        exists x. split; [reflexivity |].
        now rewrite Htr2, Htr, <- !app_assoc.
      * cbn [on_exit] in Hr. injection Hr as <-.
        destruct (Hcut_slurm w1 w2 Hs)
          as (pre & t & t1 & rc & err & Hd & Htr3).
        exists (th ++ pre), t. right. split; [reflexivity |].
        exists t1. split; [exact Hd |]. right. split; [reflexivity |].
        exists rc, err. now rewrite Htr3, Htr, <- !app_assoc.
    + destruct (Hhome _ _ eq_refl) as (th & Htr & Hp & _ & _).
      destruct (polls_raise_last _ _ _ _ _ Hp _ eq_refl)
        as [(pre & t & e2 & _ & (b & _ & Hb)) | (-> & _)];
        [discriminate Hb |].
      injection Hrun as <- <-.
      destruct (Hcut_home w1 eq_refl) as (pre & t & t1 & Hd & Htr3).
      exists pre, t. right. split; [reflexivity |].
      exists t1. split; [exact Hd |]. now left.
  - intros Hnever Hfuel.
    destruct (while_never deadline (home_missing u) (home_poll u)
                (home_is_missing os u) (home_is_missing_one_poll os u)
                fuel w (home_is_missing_never os u Hnever))
      as (w' & Hrun & _);
      [lia | subst deadline; unfold ms_per_s; lia |].
    rewrite Hrun. exists w'. split; [reflexivity |].
    destruct (Hcut_home w' Hrun) as (pre & t & t1 & _ & ->).
    apply cut_short_last_warning.
  - intros -> Hhere Hnever Hfuel.
    destruct fuel as [| fuel']; [lia |].
    assert (Hh : while (S fuel') (home_is_missing os u)
                   (poll_body deadline (home_missing u)) w =
                 Some (Ok tt, snd (home_is_missing os u w))).
    { cbn [while]. unfold home_is_missing, bind, path_exists, ret.
      destruct (probe os w (home_of u)) as [b d]. cbn [fst] in Hhere.
      subst b. reflexivity. }
    rewrite Hh.
    pose proof (one_poll_now _ _ (home_is_missing_one_poll os u) w) as Hnow.
    destruct (while_never deadline (slurm_missing u) (slurm_poll u)
                (slurm_is_missing os u) (slurm_is_missing_one_poll os u)
                (S fuel') (snd (home_is_missing os u w))
                (slurm_is_missing_never os u Hnever))
      as (w' & Hrun & _);
      [lia | subst deadline; unfold ms_per_s; lia |].
    rewrite Hrun. exists w'. split; [reflexivity |].
    destruct (Hcut_slurm _ w' Hrun) as (pre & t & t1 & rc & err & _ & ->).
    apply cut_short_last_warning.
Qed.

(** C2, as the claim has it, fails: the error of a gate that the deadline
    ended does not tell which condition was unsatisfied.  A gate that never
    saw the home folder and a gate that saw it and never saw the Slurm
    account raise the same bare [TimeoutError]; only their last warnings
    differ. *)
Lemma timeout_error_names_no_condition :
  exists wa wb,
    pre_spawn_start (os_gate false 0 "") 2 (with_timeout 1) alice
      (first_spawn true) epoch =
      Some (Raise (OSError bare_TimeoutError), wa) /\
    last_warning (trace wa) = Some "Home folder for alice is missing" /\
    pre_spawn_start (os_gate true 0 "") 2 (with_timeout 1) alice
      (first_spawn true) epoch =
      Some (Raise (OSError bare_TimeoutError), wb) /\
    last_warning (trace wb) = Some "Slurm account for alice is missing".
Proof.
  do 2 eexists. split; [reflexivity |]. split; [reflexivity |].
  split; reflexivity.
Qed.

(** The home folder of alice appears three seconds after a first spawn
    with a local spawner: the gate returns at that time, after three
    warnings, and raises nothing. *)
Example pre_spawn_start_alice :
  exists w',
    pre_spawn_start (os_home_after 3000) 31 default_authenticator alice
      (first_spawn false) epoch = Some (Ok tt, w') /\
    now w' = 3000 /\
    List.length
      (filter (fun entry => match snd entry with
                            | Warning _ => true
                            | _ => false
                            end) (trace w')) = 3%nat.
Proof. eexists. split; [reflexivity |]. split; reflexivity. Qed.

(** A [SlurmSpawner], the home folder there after two seconds, no account
    printed: the accounting loop starts at two seconds and the gate fails
    at the deadline of the call, four seconds, not four seconds later. *)
Example pre_spawn_start_one_deadline :
  exists w',
    pre_spawn_start
      {| spawn := fun _ _ => (Exited 0 "" "", 0%N);
         probe := fun w _ => (2000 <=? now w, 0%N) |}
      5 (with_timeout 4) alice (first_spawn true) epoch =
      Some (Raise (OSError bare_TimeoutError), w') /\
    now w' = 4000 /\
    count_runs (sacctmgr_argv alice) (trace w') = 2%nat.
Proof. eexists. split; [reflexivity |]. split; reflexivity. Qed.

(** * Further properties *)

(** ** The credential scope at its edges *)

(** X1.  When [kinit] cannot be launched the scope raises that [OSError]
    at once: the block is not run and [kdestroy] is not called, the log
    gains the one failed call. *)
Theorem kerberos_ticket_kinit_not_launched (os : OS) {A} self
  (body : M A) (w : world) (e : os_error) :
  reply_to os w (kinit_argv self) = LaunchFault e ->
  kerberos_ticket os self body w =
    (Raise (OSError e),
     {| now := now w + Z.of_N (snd (spawn os w (kinit_argv self)));
        trace := trace w ++
                 [(now w, Run (kinit_argv self) (LaunchFault e))] |}).
Proof.
  intros Hk. rewrite kerberos_ticket_eq, Hk.
  unfold after_run, log_event. now rewrite Hk.
Qed.

Lemma kerberos_ticket_kinit_not_launched_witness :
  kerberos_ticket (os_without "kinit") default_authenticator
    (subprocess_run (os_without "kinit") (user_show_argv alice) false)
    epoch =
  (Raise (OSError (enoent "kinit")),
   {| now := 0;
      trace := [(0, Run (kinit_argv default_authenticator)
                      (LaunchFault (enoent "kinit")))] |}).
Proof.
  rewrite (kerberos_ticket_kinit_not_launched (os_without "kinit")
             default_authenticator
             (subprocess_run (os_without "kinit") (user_show_argv alice)
                false)
             epoch (enoent "kinit")); reflexivity.
Defined.

(** X2.  When [kdestroy] cannot be launched its [OSError] is what the
    scope raises, whatever the block did: a value that the block returned
    is lost, an exception that the block raised is replaced. *)
Theorem kerberos_ticket_kdestroy_not_launched (os : OS) {A} self
  (body : M A) (w : world) (e : os_error) :
  launched (reply_to os w (kinit_argv self)) = true ->
  let w2 := snd (body (after_run os w (kinit_argv self))) in
  reply_to os w2 (kdestroy_argv self) = LaunchFault e ->
  kerberos_ticket os self body w =
    (Raise (OSError e), after_run os w2 (kdestroy_argv self)).
Proof.
  intros Hk w2 Hd. rewrite kerberos_ticket_eq.
  destruct (reply_to os w (kinit_argv self)) as [x | rc out err];
    [discriminate Hk |].
  cbn zeta. fold w2. now rewrite Hd.
Qed.

(** The query succeeds and its answer is lost. *)
Lemma kerberos_ticket_kdestroy_not_launched_witness :
  fst (subprocess_run (os_without "kdestroy") (user_show_argv alice) false
         (after_run (os_without "kdestroy") epoch
            (kinit_argv default_authenticator))) =
    Ok (mk_completed_process (user_show_argv alice) 0 "ok" "") /\
  fst (kerberos_ticket (os_without "kdestroy") default_authenticator
         (subprocess_run (os_without "kdestroy") (user_show_argv alice)
            false)
         epoch) = Raise (OSError (enoent "kdestroy")).
Proof.
  split; [reflexivity |].
  rewrite (kerberos_ticket_kdestroy_not_launched (os_without "kdestroy")
             default_authenticator
             (subprocess_run (os_without "kdestroy") (user_show_argv alice)
                false)
             epoch (enoent "kdestroy")); reflexivity.
Defined.

(** ** The command lines of the directory query *)

(** X3.  [system_user_exists] hands to [subprocess.run], in this order and
    once each, [kinit -kt <keytab_path> -p <keytab_principal>], [ipa
    user-show <name>] and [kdestroy -p <keytab_principal>]; the last two
    only when [kinit] could be launched, and then both, whatever [kinit]
    and the query answered. *)
Theorem system_user_exists_commands (os : OS) self (u : user) (w : world) :
  map (fun entry => match snd entry with
                    | Run argv _ => argv
                    | _ => []
                    end)
      (skipn (List.length (trace w))
         (trace (snd (system_user_exists os self u w)))) =
  if launched (reply_to os w (kinit_argv self))
  then [["kinit"; "-kt"; keytab_path self; "-p"; keytab_principal self];
        ["ipa"; "user-show"; name u];
        ["kdestroy"; "-p"; keytab_principal self]]
  else [["kinit"; "-kt"; keytab_path self; "-p"; keytab_principal self]].
Proof.
  rewrite (system_user_exists_eq os self u w).
  destruct (reply_to os w (kinit_argv self)) as [x | rc out err] eqn:Hk;
    cbn [launched snd].
  - rewrite after_run_trace, skipn_app, skipn_all, Nat.sub_diag.
    reflexivity.
  - rewrite after_three_runs, skipn_app, skipn_all, Nat.sub_diag.
    reflexivity.
Qed.

(** ** The gate at its first poll *)

Lemma while_home_found (os : OS) (fuel : nat) (u : user) (body : M unit)
  (w : world) :
  fst (probe os w (home_of u)) = true ->
  while (S fuel) (home_is_missing os u) body w =
  Some (Ok tt, snd (path_exists os (home_of u) w)).
Proof.
  intros Hhome. cbn [while].
  unfold home_is_missing, bind, path_exists, ret.
  destruct (probe os w (home_of u)) as [b d]. cbn [fst] in Hhome.
  subst b. reflexivity.
Qed.

(** X4.  A user whose home folder is there at the first probe and, for a
    [SlurmSpawner], for whom [sacctmgr] prints something at its first run,
    passes the gate at once: one probe, one run of [sacctmgr], no warning
    and no sleep.  The exit status of [sacctmgr] plays no part, and
    neither does [pre_spawn_timeout]: a time-out of zero or less does not
    fail a user who is provisioned. *)
Theorem pre_spawn_start_provisioned (os : OS) (fuel : nat) self (u : user)
  (slurm : bool) (w : world) :
  fst (probe os w (home_of u)) = true ->
  let w1 := snd (path_exists os (home_of u) w) in
  (slurm = true ->
   exists rc out err,
     reply_to os w1 (sacctmgr_argv u) = Exited rc out err /\ out <> "") ->
  pre_spawn_start os (S fuel) self u (first_spawn slurm) w =
  Some (Ok tt, if slurm then after_run os w1 (sacctmgr_argv u) else w1).
Proof.
  intros Hhome w1 Hacct.
  rewrite (pre_spawn_start_eq os (S fuel) self u slurm w). cbn zeta.
  rewrite (while_home_found os fuel u _ w Hhome). fold w1.
  destruct slurm; [| reflexivity].
  destruct (Hacct eq_refl) as (rc & out & err & Hr & Hout).
  cbn [while]. unfold slurm_is_missing, bind, ret.
  rewrite subprocess_run_eq, Hr. cbn [andb stdout].
  destruct out as [| c out]; [contradiction |]. reflexivity.
Qed.

(** A time-out of zero, a [sacctmgr] that exits with status 1 and prints
    a line. *)
Lemma pre_spawn_start_provisioned_witness :
  pre_spawn_start
    (os_home_at 0 0 [("sacctmgr", Exited 1 "alice|def-sponsor00" "")])
    1 (with_timeout 0) alice (first_spawn true) epoch =
  Some (Ok tt,
        {| now := 0;
           trace := [(0, PathExists "/home/alice" true);
                     (0, Run ["sacctmgr"; "show"; "user"; "-n"; "alice"]
                           (Exited 1 "alice|def-sponsor00" ""))] |}).
Proof.
  rewrite (pre_spawn_start_provisioned
             (os_home_at 0 0
                [("sacctmgr", Exited 1 "alice|def-sponsor00" "")])
             0 (with_timeout 0) alice true epoch).
  - reflexivity.
  - reflexivity.
  - intros _. exists 1, "alice|def-sponsor00", "". split; [reflexivity |].
    discriminate.
Defined.

(** X5.  A [SlurmSpawner] on a host where [sacctmgr] cannot be launched:
    as soon as the home folder is found the gate raises the [OSError] of
    the launch, without a warning and without waiting for the deadline. *)
Theorem pre_spawn_start_sacctmgr_not_launched (os : OS) (fuel : nat) self
  (u : user) (w : world) (e : os_error) :
  fst (probe os w (home_of u)) = true ->
  let w1 := snd (path_exists os (home_of u) w) in
  reply_to os w1 (sacctmgr_argv u) = LaunchFault e ->
  pre_spawn_start os (S fuel) self u (first_spawn true) w =
  Some (Raise (OSError e), after_run os w1 (sacctmgr_argv u)).
Proof.
  intros Hhome w1 Hr.
  rewrite (pre_spawn_start_eq os (S fuel) self u true w). cbn zeta.
  rewrite (while_home_found os fuel u _ w Hhome). fold w1.
  cbn [while]. unfold slurm_is_missing, bind, ret.
  rewrite subprocess_run_eq, Hr. reflexivity.
Qed.

Lemma pre_spawn_start_sacctmgr_not_launched_witness :
  pre_spawn_start (os_without "sacctmgr") 1 default_authenticator alice
    (first_spawn true) epoch =
  Some (Raise (OSError (enoent "sacctmgr")),
        {| now := 0;
           trace := [(0, PathExists "/home/alice" true);
                     (0, Run ["sacctmgr"; "show"; "user"; "-n"; "alice"]
                           (LaunchFault (enoent "sacctmgr")))] |}).
Proof.
  rewrite (pre_spawn_start_sacctmgr_not_launched (os_without "sacctmgr")
             0 default_authenticator alice epoch (enoent "sacctmgr"));
    reflexivity.
Defined.

(** ** What the gate logs *)

Lemma polls_events (deadline : Z) (msg : string)
  (Q : event -> result bool -> Prop) (tr : list (Z * event))
  (r : result unit) :
  polls deadline msg Q tr r ->
  forall t e, In (t, e) tr ->
    (exists r', Q e r') \/ e = Warning msg \/ e = Sleep 1.
Proof.
  induction 1 as [t e HQ | t e x HQ | t t1 e HQ Ht Hd
                  | t t1 e rest r HQ Ht Hd Hs Hp IH];
    intros t' e' Hin; cbn [In] in Hin;
    repeat match goal with
      | H : _ \/ _ |- _ => destruct H as [H | H]
      | H : (_, _) = (_, _) |- _ => injection H as <- <-
      | H : False |- _ => destruct H
      end; eauto.
Qed.

(** X6.  Whatever the operating system answers, a call of
    [pre_spawn_start] only adds to the log, and what it adds is nothing
    but probes of [/home/<name>], runs of [sacctmgr show user -n <name>],
    the two warnings and sleeps of one second; [sacctmgr] and the Slurm
    warning only for a [SlurmSpawner].  In particular the gate never runs
    [kinit], [kdestroy], [ipa] or the user-creation command. *)
Theorem pre_spawn_start_logs (os : OS) (fuel : nat) self (u : user)
  (sp : spawner) (w : world) (r : result unit) (w' : world) :
  pre_spawn_start os fuel self u sp w = Some (r, w') ->
  exists new,
    trace w' = trace w ++ new /\
    forall t e, In (t, e) new -> gate_event u (is_SlurmSpawner sp) e.
Proof.
  destruct sp as [[la |] slurm]; cbn [is_SlurmSpawner].
  { intros Hrun. injection Hrun as <- <-. exists [].
    split; [now rewrite app_nil_r | intros t e []]. }
  change {| last_activity := None; is_SlurmSpawner := slurm |}
    with (first_spawn slurm).
  rewrite (pre_spawn_start_eq os fuel self u slurm w). cbn zeta.
  set (deadline := now w + pre_spawn_timeout self * ms_per_s).
  intros Hrun.
  destruct (while fuel (home_is_missing os u) _ w)
    as [[rh w1] |] eqn:Hh; [| discriminate Hrun].
  destruct (while_polls deadline (home_missing u) (home_poll u)
              (home_is_missing os u) (home_is_missing_one_poll os u)
              fuel w rh w1 Hh) as (th & Htr & Hp & _ & _).
  assert (Hth : forall t e, In (t, e) th -> gate_event u slurm e).
  { intros t e Hin.
    destruct (polls_events _ _ _ _ _ Hp t e Hin)
      as [(r' & b & -> & _) | [-> | ->]]; cbn; auto. }
  assert (Hhome_only : Some (on_exit rh, w1) = Some (r, w') ->
    exists new,
      trace w' = trace w ++ new /\
      forall t e, In (t, e) new -> gate_event u slurm e).
  { intros H. injection H as _ <-. now exists th. }
  destruct rh as [[] | e]; [| exact (Hhome_only Hrun)].
  destruct slurm; [| exact (Hhome_only Hrun)].
  destruct (while fuel (slurm_is_missing os u) _ w1)
    as [[rs w2] |] eqn:Hs; [| discriminate Hrun].
  injection Hrun as _ <-.
  destruct (while_polls deadline (slurm_missing u) (slurm_poll u)
              (slurm_is_missing os u) (slurm_is_missing_one_poll os u)
              fuel w1 rs w2 Hs) as (ts & Htr2 & Hp2 & _ & _).
  exists (th ++ ts). split; [now rewrite Htr2, Htr, app_assoc |].
  intros t e Hin. apply in_app_or in Hin. destruct Hin as [Hin | Hin];
    [exact (Hth t e Hin) |].
  destruct (polls_events _ _ _ _ _ Hp2 t e Hin)
    as [(r' & reply & -> & _) | [-> | ->]]; cbn; auto.
Qed.

Lemma pre_spawn_start_logs_witness :
  exists new : list (Z * event),
    List.length new = 4%nat /\
    forall t e, In (t, e) new -> gate_event alice true e.
Proof.
  destruct (pre_spawn_start_logs (os_gate true 0 "") 2 (with_timeout 1)
              alice (first_spawn true) epoch
              (Raise (OSError bare_TimeoutError))
              {| now := 1000;
                 trace := [(0, PathExists "/home/alice" true);
                           (0, Run (sacctmgr_argv alice) (Exited 0 "" ""));
                           (0, Warning (slurm_missing alice));
                           (0, Sleep 1)] |} eq_refl)
    as (new & Htr & Hnew).
  exists new. split; [| exact Hnew].
  simpl in Htr. subst new. reflexivity.
Defined.

(** ** The gate and the clock *)

Lemma count_sleeps_app (tr1 tr2 : list (Z * event)) :
  count_sleeps (tr1 ++ tr2) = (count_sleeps tr1 + count_sleeps tr2)%nat.
Proof. unfold count_sleeps. now rewrite filter_app, length_app. Qed.

Lemma count_warnings_app (tr1 tr2 : list (Z * event)) :
  count_warnings (tr1 ++ tr2) =
  (count_warnings tr1 + count_warnings tr2)%nat.
Proof. unfold count_warnings. now rewrite filter_app, length_app. Qed.

Lemma count_sleeps_poll (tr : list (Z * event)) (t : Z) (e : event) :
  is_sleep (0, e) = false ->
  count_sleeps (tr ++ [(t, e)]) = count_sleeps tr.
Proof.
  intros He. rewrite count_sleeps_app. unfold count_sleeps at 2.
  cbn [filter]. change (is_sleep (t, e)) with (is_sleep (0, e)).
  rewrite He. cbn. lia.
Qed.

Lemma count_warnings_poll (tr : list (Z * event)) (t : Z) (e : event) :
  is_warning (0, e) = false ->
  count_warnings (tr ++ [(t, e)]) = count_warnings tr.
Proof.
  intros He. rewrite count_warnings_app. unfold count_warnings at 2.
  cbn [filter]. change (is_warning (t, e)) with (is_warning (0, e)).
  rewrite He. cbn. lia.
Qed.

Section PollingLoopClock.

Variables (deadline : Z) (msg : string).
Variables (Q : event -> result bool -> Prop) (cond : M bool).
Hypothesis cond_polls : one_poll Q cond.
Hypothesis cond_event :
  forall e r, Q e r -> is_sleep (0, e) = false /\ is_warning (0, e) = false.

(** A loop that the deadline ended did not end before the deadline. *)
Lemma while_cancelled_late (fuel : nat) (w w' : world) :
  (forall e, ~ Q e (Raise CancelledError)) ->
  while fuel cond (poll_body deadline msg) w =
    Some (Raise CancelledError, w') ->
  deadline <= now w'.
Proof.
  intros Hnot. revert w. induction fuel as [| fuel IH]; intros w Hrun;
    [discriminate Hrun |].
  cbn [while] in Hrun.
  destruct (cond_polls w) as (e & d & _ & HQ).
  destruct (cond w) as [rc w1]. cbn [fst] in HQ.
  destruct rc as [[|] | x].
  - rewrite poll_body_eq in Hrun.
    destruct (Z.leb_spec deadline (now w1 + 1 * ms_per_s)) as [Hle | Hlt].
    + injection Hrun as <-. cbn [now]. lia.
    + exact (IH _ Hrun).
  - discriminate Hrun.
  - injection Hrun as -> _. destruct (Hnot e HQ).
Qed.

(** The sleeps of a loop: as many as its warnings, each of them a second
    of the time left to the deadline. *)
Lemma while_sleeps (fuel : nat) (w : world) (r : result unit) (w' : world) :
  while fuel cond (poll_body deadline msg) w = Some (r, w') ->
  exists k : nat,
    count_sleeps (trace w') = (count_sleeps (trace w) + k)%nat /\
    count_warnings (trace w') = (count_warnings (trace w) + k)%nat /\
    ms_per_s * Z.of_nat k <= Z.max 0 (deadline - now w - 1) + ms_per_s /\
    (r <> Raise CancelledError ->
     now w + ms_per_s * Z.of_nat k <= now w' /\
     ((0 < k)%nat -> now w + ms_per_s * Z.of_nat k < deadline)).
Proof.
  revert w. induction fuel as [| fuel IH]; intros w Hrun;
    [discriminate Hrun |].
  cbn [while] in Hrun.
  destruct (cond_polls w) as (e & d & Hw1 & HQ).
  destruct (cond_event _ _ HQ) as [Hns Hnw].
  destruct (cond w) as [rc w1]. cbn [fst snd] in Hw1, HQ.
  assert (Hnow : now w <= now w1)
    by (subst w1; unfold log_event; cbn; lia).
  assert (Hcs : count_sleeps (trace w1) = count_sleeps (trace w)).
  { subst w1. unfold log_event. cbn [trace].
    now apply count_sleeps_poll. }
  assert (Hcw : count_warnings (trace w1) = count_warnings (trace w)).
  { subst w1. unfold log_event. cbn [trace].
    now apply count_warnings_poll. }
  clear Hw1.
  assert (Hend : forall r0 : result unit,
    exists k : nat,
      count_sleeps (trace w1) = (count_sleeps (trace w) + k)%nat /\
      count_warnings (trace w1) = (count_warnings (trace w) + k)%nat /\
      ms_per_s * Z.of_nat k <= Z.max 0 (deadline - now w - 1) + ms_per_s /\
      (r0 <> Raise CancelledError ->
       now w + ms_per_s * Z.of_nat k <= now w1 /\
       ((0 < k)%nat -> now w + ms_per_s * Z.of_nat k < deadline))).
  { intros r0. exists 0%nat. unfold ms_per_s. repeat split; lia. }
  destruct rc as [[|] | x].
  - rewrite poll_body_eq in Hrun.
    destruct (Z.leb_spec deadline (now w1 + 1 * ms_per_s)) as [Hle | Hlt].
    + injection Hrun as <- <-. exists 1%nat. cbn [trace].
      rewrite count_sleeps_app, count_warnings_app, Hcs, Hcw.
      unfold ms_per_s.
      split; [reflexivity |]. split; [reflexivity |]. split; [lia |].
      intros Hr. now destruct Hr.
    + destruct (IH _ Hrun) as (k & Hs & Hw & Ha & Hb).
      cbn [trace now] in Hs, Hw, Ha, Hb.
      rewrite count_sleeps_app, Hcs in Hs.
      rewrite count_warnings_app, Hcw in Hw.
      exists (S k). unfold ms_per_s in *.
      change (count_sleeps [(now w1, Warning msg); (now w1, Sleep 1)])
        with 1%nat in Hs.
      change (count_warnings [(now w1, Warning msg); (now w1, Sleep 1)])
        with 1%nat in Hw.
      split; [lia |]. split; [lia |]. split; [lia |].
      intros Hr. destruct (Hb Hr) as [Hb1 Hb2].
      split; [lia |]. intros _.
      destruct k as [| k]; [lia |].
      assert (0 < S k)%nat as Hk by lia. specialize (Hb2 Hk). lia.
  - injection Hrun as <- <-. exact (Hend (Ok tt)).
  - injection Hrun as <- <-. exact (Hend (Raise x)).
Qed.

End PollingLoopClock.

Lemma home_poll_event (u : user) (e : event) (r : result bool) :
  home_poll u e r -> is_sleep (0, e) = false /\ is_warning (0, e) = false.
Proof. intros (b & -> & _). split; reflexivity. Qed.

Lemma slurm_poll_event (u : user) (e : event) (r : result bool) :
  slurm_poll u e r -> is_sleep (0, e) = false /\ is_warning (0, e) = false.
Proof. intros (reply & -> & _). split; reflexivity. Qed.

Lemma home_poll_not_cancelled (u : user) (e : event) :
  ~ home_poll u e (Raise CancelledError).
Proof. intros (b & _ & H). discriminate H. Qed.

Lemma slurm_poll_not_cancelled (u : user) (e : event) :
  ~ slurm_poll u e (Raise CancelledError).
Proof. intros (reply & _ & H). destruct reply; discriminate H. Qed.

(** X7.  The gate does not give up early: a first spawn that fails, fails
    no earlier than [pre_spawn_timeout] seconds after the call, unless
    what failed is the launch of [sacctmgr]. *)
Theorem pre_spawn_start_not_before_deadline (os : OS) (fuel : nat) self
  (u : user) (slurm : bool) (w : world) (e : exn) (w' : world) :
  pre_spawn_start os fuel self u (first_spawn slurm) w =
    Some (Raise e, w') ->
  now w + pre_spawn_timeout self * ms_per_s <= now w' \/
  (slurm = true /\
   exists x pre t,
     e = OSError x /\
     trace w' = pre ++ [(t, Run (sacctmgr_argv u) (LaunchFault x))]).
Proof.
  rewrite (pre_spawn_start_eq os fuel self u slurm w). cbn zeta.
  set (deadline := now w + pre_spawn_timeout self * ms_per_s).
  intros Hrun.
  destruct (while fuel (home_is_missing os u) _ w)
    as [[rh w1] |] eqn:Hh; [| discriminate Hrun].
  destruct rh as [[] | e0].
  - destruct slurm; [| discriminate Hrun].
    destruct (while fuel (slurm_is_missing os u) _ w1)
      as [[rs w2] |] eqn:Hs; [| discriminate Hrun].
    injection Hrun as Hr <-.
    destruct rs as [[] | e1]; [discriminate Hr |].
    destruct (while_polls deadline (slurm_missing u) (slurm_poll u)
                (slurm_is_missing os u) (slurm_is_missing_one_poll os u)
                fuel w1 _ w2 Hs) as (ts & Htr & Hp & _ & _).
    destruct (polls_raise_last _ _ _ _ _ Hp _ eq_refl)
      as [(pre & t & e2 & -> & (reply & -> & Hb)) | (-> & _)].
    + right. split; [reflexivity |].
      destruct reply as [x | rc out err]; [| discriminate Hb].
      injection Hb as Hb. subst e1. cbn [on_exit] in Hr.
      injection Hr as <-.
      exists x, (trace w1 ++ pre), t. split; [reflexivity |].
      now rewrite Htr, app_assoc.
    + left.
      exact (while_cancelled_late deadline (slurm_missing u) (slurm_poll u)
               (slurm_is_missing os u) (slurm_is_missing_one_poll os u)
               fuel w1 w2 (slurm_poll_not_cancelled u) Hs).
  - injection Hrun as _ <-. left.
    destruct (while_polls deadline (home_missing u) (home_poll u)
                (home_is_missing os u) (home_is_missing_one_poll os u)
                fuel w _ w1 Hh) as (th & _ & Hp & _ & _).
    destruct (polls_raise_last _ _ _ _ _ Hp _ eq_refl)
      as [(pre & t & e2 & _ & (b & _ & Hb)) | (-> & _)];
      [discriminate Hb |].
    exact (while_cancelled_late deadline (home_missing u) (home_poll u)
             (home_is_missing os u) (home_is_missing_one_poll os u)
             fuel w w1 (home_poll_not_cancelled u) Hh).
Qed.

(** A probe that blocks for five seconds under a time-out of two: the
    gate fails after the deadline, not before. *)
Lemma pre_spawn_start_not_before_deadline_witness :
  now epoch + pre_spawn_timeout (with_timeout 2) * ms_per_s <= 5000 \/
  (false = true /\
   exists x pre t,
     OSError bare_TimeoutError = OSError x /\
     [(0, PathExists "/home/alice" false);
      (5000, Warning "Home folder for alice is missing");
      (5000, Sleep 1)] =
     pre ++ [(t, Run (sacctmgr_argv alice) (LaunchFault x))]).
Proof.
  exact (pre_spawn_start_not_before_deadline (os_gate false 5000 "") 3
           (with_timeout 2) alice false epoch (OSError bare_TimeoutError)
           {| now := 5000;
              trace := [(0, PathExists "/home/alice" false);
                        (5000, Warning "Home folder for alice is missing");
                        (5000, Sleep 1)] |} eq_refl).
Defined.

(** X8.  The gate sleeps at most [pre_spawn_timeout] times over both
    loops (once, when the time-out is below one second), and logs one
    warning for each sleep: however slow or wrong the operating system,
    the log of one call holds no more than that many warnings. *)
Theorem pre_spawn_start_sleeps_bounded (os : OS) (fuel : nat) self
  (u : user) (sp : spawner) (w : world) (r : result unit) (w' : world) :
  pre_spawn_start os fuel self u sp w = Some (r, w') ->
  exists k : nat,
    count_sleeps (trace w') = (count_sleeps (trace w) + k)%nat /\
    count_warnings (trace w') = (count_warnings (trace w) + k)%nat /\
    Z.of_nat k <= Z.max 1 (pre_spawn_timeout self).
Proof.
  destruct sp as [[la |] slurm].
  { intros Hrun. injection Hrun as <- <-. exists 0%nat.
    repeat split; lia. }
  change {| last_activity := None; is_SlurmSpawner := slurm |}
    with (first_spawn slurm).
  rewrite (pre_spawn_start_eq os fuel self u slurm w). cbn zeta.
  set (deadline := now w + pre_spawn_timeout self * ms_per_s).
  intros Hrun.
  destruct (while fuel (home_is_missing os u) _ w)
    as [[rh w1] |] eqn:Hh; [| discriminate Hrun].
  destruct (while_sleeps deadline (home_missing u) (home_poll u)
              (home_is_missing os u) (home_is_missing_one_poll os u)
              (home_poll_event u) fuel w rh w1 Hh)
    as (kh & Hsh & Hwh & Hah & Hbh).
  assert (Hhome_only : Some (on_exit rh, w1) = Some (r, w') ->
    exists k : nat,
      count_sleeps (trace w') = (count_sleeps (trace w) + k)%nat /\
      count_warnings (trace w') = (count_warnings (trace w) + k)%nat /\
      Z.of_nat k <= Z.max 1 (pre_spawn_timeout self)).
  { intros H. injection H as _ <-. exists kh.
    split; [exact Hsh |]. split; [exact Hwh |].
    subst deadline. unfold ms_per_s in *. lia. }
  destruct rh as [[] | e]; [| exact (Hhome_only Hrun)].
  destruct slurm; [| exact (Hhome_only Hrun)].
  destruct (while fuel (slurm_is_missing os u) _ w1)
    as [[rs w2] |] eqn:Hs; [| discriminate Hrun].
  injection Hrun as _ <-.
  destruct (while_sleeps deadline (slurm_missing u) (slurm_poll u)
              (slurm_is_missing os u) (slurm_is_missing_one_poll os u)
              (slurm_poll_event u) fuel w1 rs w2 Hs)
    as (ks & Hss & Hws & Has & _).
  destruct Hbh as [Hb1 Hb2]; [discriminate |].
  exists (kh + ks)%nat.
  split; [lia |]. split; [lia |].
  subst deadline. unfold ms_per_s in *.
  destruct kh as [| kh]; [lia |].
  assert (0 < S kh)%nat as Hk by lia. specialize (Hb2 Hk). lia.
Qed.

(** No home folder, probes that return at once, a time-out of three
    seconds: three sleeps, three warnings. *)
Lemma pre_spawn_start_sleeps_bounded_witness :
  exists k : nat,
    3%nat = (0 + k)%nat /\ 3%nat = (0 + k)%nat /\
    Z.of_nat k <= Z.max 1 3.
Proof.
  exact (pre_spawn_start_sleeps_bounded (os_gate false 0 "") 4
           (with_timeout 3) alice (first_spawn false) epoch
           (Raise (OSError bare_TimeoutError))
           {| now := 3000;
              trace := [(0, PathExists "/home/alice" false);
                        (0, Warning "Home folder for alice is missing");
                        (0, Sleep 1);
                        (1000, PathExists "/home/alice" false);
                        (1000, Warning "Home folder for alice is missing");
                        (1000, Sleep 1);
                        (2000, PathExists "/home/alice" false);
                        (2000, Warning "Home folder for alice is missing");
                        (2000, Sleep 1)] |} eq_refl).
Defined.

Lemma home_is_missing_eq (os : OS) (u : user) (w : world) :
  home_is_missing os u w =
  (Ok (negb (fst (probe os w (home_of u)))),
   log_event (PathExists (home_of u) (fst (probe os w (home_of u))))
     (snd (probe os w (home_of u))) w).
Proof.
  unfold home_is_missing, bind, path_exists, ret.
  destruct (probe os w (home_of u)) as [b d]. reflexivity.
Qed.

(** The home-directory loop for a directory that appears at time [T]. *)
Lemma while_home_appears (os : OS) (u : user) (deadline T dmax : Z) :
  (forall w0, fst (probe os w0 (home_of u)) = (T <=? now w0)) ->
  (forall w0, Z.of_N (snd (probe os w0 (home_of u))) <= dmax) ->
  T + dmax + 1 * ms_per_s <= deadline ->
  forall (fuel : nat) (w : world),
    Z.max 0 (T - now w) + ms_per_s <= ms_per_s * Z.of_nat fuel ->
    exists w',
      while fuel (home_is_missing os u)
        (poll_body deadline (home_missing u)) w = Some (Ok tt, w') /\
      T <= now w' /\
      now w' <= Z.max (now w) (T + 1 * ms_per_s + dmax) + dmax.
Proof.
  intros Happears Hquick Hroom.
  induction fuel as [| fuel IH]; intros w Hfuel;
    [unfold ms_per_s in *; lia |].
  cbn [while]. rewrite home_is_missing_eq, Happears.
  pose proof (Hquick w) as Hd.
  set (d := snd (probe os w (home_of u))) in *.
  destruct (Z.leb_spec T (now w)) as [Hthere | Hnotyet]; cbn [negb].
  - eexists. split; [reflexivity |]. unfold log_event; cbn [now]. lia.
  - rewrite poll_body_eq. unfold log_event at 1 2. cbn [now].
    destruct (Z.leb_spec deadline (now w + Z.of_N d + 1 * ms_per_s))
      as [Hle | Hlt]; [unfold ms_per_s in *; lia |].
    match goal with
    | |- exists w', while fuel _ _ ?w2 = _ /\ _ =>
        destruct (IH w2) as (w' & Hrun & Hlo & Hhi)
    end.
    + unfold log_event. cbn [now]. unfold ms_per_s in *. lia.
    + exists w'. split; [exact Hrun |]. split; [exact Hlo |].
      unfold log_event in Hhi. cbn [now] in Hhi.
      unfold ms_per_s in *. lia.
Qed.

(** X9.  When nothing but the probes takes time (logging a warning takes
    no time and the event loop is otherwise idle, so that every sleep is
    woken exactly one second after it starts, as [log_warning] and
    [asyncio_sleep] are modelled), a home folder that appears at time [T],
    at least one second and the time of one probe before the deadline,
    lets a local spawner through: the gate returns, no earlier than [T]
    and no later than one second after [T], give or take the time of the
    probes. *)
Theorem pre_spawn_start_home_appears (os : OS) (fuel : nat) self (u : user)
  (w : world) (T dmax : Z) :
  (forall w0, fst (probe os w0 (home_of u)) = (T <=? now w0)) ->
  (forall w0, Z.of_N (snd (probe os w0 (home_of u))) <= dmax) ->
  T + dmax + 1 * ms_per_s <= now w + pre_spawn_timeout self * ms_per_s ->
  Z.max 0 (pre_spawn_timeout self) < Z.of_nat fuel ->
  exists w',
    pre_spawn_start os fuel self u (first_spawn false) w =
      Some (Ok tt, w') /\
    T <= now w' /\
    now w' <= Z.max (now w) (T + 1 * ms_per_s + dmax) + dmax.
Proof.
  intros Happears Hquick Hroom Hfuel.
  rewrite (pre_spawn_start_eq os fuel self u false w). cbn zeta.
  pose proof (Hquick w) as Hd.
  destruct (while_home_appears os u
              (now w + pre_spawn_timeout self * ms_per_s) T dmax
              Happears Hquick Hroom fuel w) as (w' & Hrun & Hlo & Hhi);
    [unfold ms_per_s in *; lia |].
  rewrite Hrun. exists w'. repeat split; assumption.
Qed.

(** The home folder of alice appears at 2.5 s, probes take 100 ms, the
    time-out is 30 s: the gate returns between 2.5 s and 3.7 s. *)
Lemma pre_spawn_start_home_appears_witness :
  exists w',
    pre_spawn_start (os_home_at 2500 100 []) 31 default_authenticator
      alice (first_spawn false) epoch = Some (Ok tt, w') /\
    2500 <= now w' /\
    now w' <= Z.max (now epoch) (2500 + 1 * ms_per_s + 100) + 100.
Proof.
  apply (pre_spawn_start_home_appears (os_home_at 2500 100 []) 31
           default_authenticator alice epoch 2500 100).
  - intros w0. reflexivity.
  - intros w0. vm_compute. discriminate.
  - vm_compute. discriminate.
  - reflexivity.
Defined.

(** ** The configured command string *)

(** Without a quote or a backslash the tokenizer stays between [' '] and
    ['a'] and cannot fail. *)
Lemma shlex_scan_harmless (cs : list ascii) :
  forallb is_harmless cs = true ->
  forall (state : lex_state) (token : string) (quoted : bool)
    (toks : list string),
    state = InBlank \/ state = InWord ->
    exists toks', shlex_scan cs state token quoted toks = inr toks'.
Proof.
  induction cs as [| c cs IH]; intros Hcs state token quoted toks Hstate.
  - destruct Hstate as [-> | ->]; cbn; eauto.
  - cbn [forallb] in Hcs. apply andb_prop in Hcs. destruct Hcs as [Hc Hcs].
    unfold is_harmless in Hc. apply andb_prop in Hc.
    destruct Hc as [Hq He]. apply negb_true_iff in Hq, He.
    destruct Hstate as [-> | ->]; cbn [shlex_scan]; rewrite Hq, He;
      destruct (in_whitespace c); apply IH; auto.
Qed.

(** X10.  A configured command string without quote and without backslash
    always tokenizes, whatever its white space: [add_system_user] then
    raises no [ValueError], and every error it raises is one of its two
    [RuntimeError]s. *)
Theorem add_system_user_harmless (os : OS) self (u : user) (w : world) :
  forallb is_harmless (list_ascii_of_string (user_add_cmd self)) = true ->
  (exists cmd, build_user_add_cmd self u = inr cmd) /\
  forall e, fst (add_system_user os self u w) = Raise e ->
    exists msg, e = RuntimeError msg.
Proof.
  intros Hcmd.
  destruct (shlex_scan_harmless _ Hcmd InBlank "" false [] (or_introl eq_refl))
    as (toks & Htoks).
  assert (Hbuild : exists cmd, build_user_add_cmd self u = inr cmd).
  { unfold build_user_add_cmd, shlex_split. rewrite Htoks. eauto. }
  split; [exact Hbuild |].
  destruct Hbuild as (cmd & Hbuild).
  rewrite (add_system_user_eq os self u w cmd Hbuild).
  intros e.
  destruct (reply_to os w (kinit_argv self)) as [xk | rck outk errk];
    cbn [fst]; [intros H; injection H as <-; eauto |].
  destruct (reply_to os _ (kdestroy_argv self)) as [xd | rcd outd errd];
    [intros H; injection H as <-; eauto |].
  destruct (reply_to os _ cmd) as [xc | rc out err];
    [intros H; injection H as <-; eauto |].
  destruct (rc =? 0); intros H; [discriminate H |].
  injection H as <-; eauto.
Qed.

(** Double spaces in the command string, a command that fails. *)
Lemma add_system_user_harmless_witness :
  (exists cmd,
     build_user_add_cmd (with_user_add_cmd "sudo  -u ipa  ipa_create_user.py")
       alice = inr cmd) /\
  forall e,
    fst (add_system_user (os_failing "sudo" 1)
           (with_user_add_cmd "sudo  -u ipa  ipa_create_user.py")
           alice epoch) = Raise e ->
    exists msg, e = RuntimeError msg.
Proof.
  apply (add_system_user_harmless (os_failing "sudo" 1)
           (with_user_add_cmd "sudo  -u ipa  ipa_create_user.py")
           alice epoch).
  reflexivity.
Defined.

Lemma append_add_char (a b : string) (c : ascii) :
  (add_char a c ++ b)%string = (a ++ String c b)%string.
Proof.
  unfold add_char. induction a as [| x a IH]; cbn; [reflexivity |].
  now rewrite IH.
Qed.

Lemma list_ascii_of_string_append (a b : string) :
  list_ascii_of_string (a ++ b) =
  list_ascii_of_string a ++ list_ascii_of_string b.
Proof. induction a as [| x a IH]; cbn; [reflexivity | now rewrite IH]. Qed.

(** Inside a word, plain characters are added to the token. *)
Lemma shlex_scan_plain (word : string) :
  forallb is_plain (list_ascii_of_string word) = true ->
  forall (rest : list ascii) (token : string) (quoted : bool)
    (toks : list string),
    shlex_scan (list_ascii_of_string word ++ rest) InWord token quoted toks =
    shlex_scan rest InWord (token ++ word)%string quoted toks.
Proof.
  induction word as [| c word IH]; intros Hword rest token quoted toks.
  - cbn [list_ascii_of_string app].
    replace (token ++ "")%string with token; [reflexivity |].
    induction token as [| x token IHt]; cbn; [reflexivity |].
    now rewrite <- IHt.
  - cbn [list_ascii_of_string forallb] in Hword.
    apply andb_prop in Hword. destruct Hword as [Hc Hword].
    unfold is_plain in Hc. apply andb_prop in Hc. destruct Hc as [Hc He].
    apply andb_prop in Hc. destruct Hc as [Hw Hq].
    apply negb_true_iff in Hw, Hq, He.
    cbn [list_ascii_of_string app shlex_scan]. rewrite Hw, Hq, He.
    rewrite (IH Hword). now rewrite append_add_char.
Qed.

(** A plain word between tokens is read whole. *)
Lemma shlex_scan_word (word : string) (rest : list ascii)
  (toks : list string) :
  plain_word word ->
  shlex_scan (list_ascii_of_string word ++ rest) InBlank "" false toks =
  shlex_scan rest InWord word false toks.
Proof.
  intros [Hne Hword]. destruct word as [| c word]; [contradiction |].
  cbn [list_ascii_of_string forallb] in Hword.
  apply andb_prop in Hword. destruct Hword as [Hc Hword].
  unfold is_plain in Hc. apply andb_prop in Hc. destruct Hc as [Hc He].
  apply andb_prop in Hc. destruct Hc as [Hw Hq].
  apply negb_true_iff in Hw, Hq, He.
  cbn [list_ascii_of_string app shlex_scan]. rewrite Hw, Hq, He.
  now rewrite (shlex_scan_plain word Hword).
Qed.

Lemma emit_word (word : string) (toks : list string) :
  word <> "" -> emit word false toks = toks ++ [word].
Proof.
  intros Hne. unfold emit. destruct word; [contradiction | reflexivity].
Qed.

Lemma shlex_scan_words (words : list string) :
  Forall plain_word words ->
  forall toks,
    shlex_scan (list_ascii_of_string (String.concat " " words))
      InBlank "" false toks = inr (toks ++ words).
Proof.
  induction words as [| word words IH]; intros Hwords toks.
  - cbn. now rewrite app_nil_r.
  - inversion Hwords as [| ? ? Hword Hrest]; subst.
    destruct words as [| word2 words].
    + cbn [String.concat].
      rewrite <- (app_nil_r (list_ascii_of_string word)).
      rewrite (shlex_scan_word word [] toks Hword). cbn [shlex_scan].
      now rewrite (emit_word word toks (proj1 Hword)).
    + change (String.concat " " (word :: word2 :: words))
        with (word ++ " " ++ String.concat " " (word2 :: words))%string.
      rewrite list_ascii_of_string_append.
      rewrite (shlex_scan_word word _ toks Hword).
      cbn [append list_ascii_of_string shlex_scan].
      change (in_whitespace " ") with true. cbn iota.
      rewrite (emit_word word toks (proj1 Hword)).
      rewrite (IH Hrest). now rewrite <- app_assoc.
Qed.

(** X11.  A command configured as plain words (no white space, quote or
    backslash inside a word) separated by single spaces comes back from
    the tokenizer as those words: [add_system_user] runs the words, then
    the user's name, then the group option. *)
Theorem build_user_add_cmd_plain_words self (u : user)
  (words : list string) :
  Forall plain_word words ->
  user_add_cmd self = String.concat " " words ->
  shlex_split (user_add_cmd self) = inr words /\
  build_user_add_cmd self u =
    inr (words ++ [name u] ++
         if (default_group self =? "")%string then []
         else ["--group"; default_group self]).
Proof.
  intros Hwords Hcmd.
  assert (Hsplit : shlex_split (user_add_cmd self) = inr words).
  { unfold shlex_split. rewrite Hcmd.
    now rewrite (shlex_scan_words words Hwords []). }
  split; [exact Hsplit |].
  unfold build_user_add_cmd, truthy. rewrite Hsplit.
  destruct (default_group self =? "")%string; cbn [negb].
  - now rewrite app_nil_r.
  - now rewrite <- app_assoc.
Qed.

Lemma build_user_add_cmd_plain_words_witness :
  shlex_split "sudo -u ipa ipa_create_user.py" =
    inr ["sudo"; "-u"; "ipa"; "ipa_create_user.py"] /\
  build_user_add_cmd (with_user_add_cmd "sudo -u ipa ipa_create_user.py")
    alice =
    inr ["sudo"; "-u"; "ipa"; "ipa_create_user.py"; "alice"; "--group";
         "def-sponsor00"].
Proof.
  apply (build_user_add_cmd_plain_words
           (with_user_add_cmd "sudo -u ipa ipa_create_user.py") alice
           ["sudo"; "-u"; "ipa"; "ipa_create_user.py"]).
  - repeat constructor; discriminate.
  - reflexivity.
Defined.
